(** * golang-tmdb: the request execution pipeline of [tmdb.go]

    A shallow embedding of the client handle, the retry policy, the two
    request executors ([get] and [request]), the error decoder and the
    option formatter of [src/tmdb.go], followed by the properties proved
    about them.

    Conventions.
    - Go strings and byte slices are [string] (a list of 8-bit [ascii]).
    - Go [int], [int64] and [time.Duration] are [Z]; where the source
      computes in a fixed width the wrap-around is written out.
    - The parts of the Go standard library the file calls ([strconv],
      [net/url], [net/http]'s status table and header map, [fmt]) are
      modelled in modules of the same name.
    - [encoding/json], [http.NewRequest] and the network are kept abstract
      (type classes); a concrete JSON reader and scripted transports are
      given for running the code on concrete inputs. *)

From Stdlib Require Import ZArith String Ascii List Lia Bool.
From stdpp Require Import base gmap strings list.

Local Open Scope Z_scope.

(* ===================================================================== *)
(** * Bytes *)
(* ===================================================================== *)

Definition byte_of (c : ascii) : Z := Z.of_N (N_of_ascii c).

Definition is_digit (c : ascii) : bool :=
  (48 <=? byte_of c) && (byte_of c <=? 57).

Definition is_upper (c : ascii) : bool :=
  (65 <=? byte_of c) && (byte_of c <=? 90).

Definition is_lower (c : ascii) : bool :=
  (97 <=? byte_of c) && (byte_of c <=? 122).

Definition ascii_eqb (a b : ascii) : bool := Ascii.eqb a b.

(** The double quote, byte 34. *)
Definition dquote : ascii := ascii_of_nat 34.

(** [len(s)] as a Go [int]. *)
Definition len (s : string) : Z := Z.of_nat (String.length s).

(* ===================================================================== *)
(** * Fixed-width integers *)
(* ===================================================================== *)

Definition wrap_u64 (z : Z) : Z := z mod 2 ^ 64.

Definition wrap_i64 (z : Z) : Z := (z + 2 ^ 63) mod 2 ^ 64 - 2 ^ 63.

(* ===================================================================== *)
(** * package strconv (base 10 only, the base the source passes) *)
(* ===================================================================== *)

Module strconv.

Inductive NumError := ErrSyntax | ErrRange.

Definition maxUint64 : Z := 2 ^ 64 - 1.

(** The smallest number such that [cutoff * 10 > maxUint64]. *)
Definition cutoff : Z := maxUint64 / 10 + 1.

(** The digit loop of [ParseUint]: [n] is the value read so far. *)
Fixpoint ParseUint_loop (s : string) (maxVal n : Z) : Z * option NumError :=
  match s with
  | EmptyString => (n, None)
  | String c rest =>
      if is_digit c then
        let d := byte_of c - 48 in
        if cutoff <=? n then (maxVal, Some ErrRange)
        else
          let n10 := n * 10 in
          let n1 := wrap_u64 (n10 + d) in
          if (n1 <? n10) || (maxVal <? n1) then (maxVal, Some ErrRange)
          else ParseUint_loop rest maxVal n1
      else (0, Some ErrSyntax)
  end.

Definition ParseUint (s : string) (bitSize : Z) : Z * option NumError :=
  match s with
  | EmptyString => (0, Some ErrSyntax)
  | _ => ParseUint_loop s (2 ^ bitSize - 1) 0
  end.

Definition ParseInt (s : string) (bitSize : Z) : Z * option NumError :=
  match s with
  | EmptyString => (0, Some ErrSyntax)
  | String c0 rest =>
      let neg := ascii_eqb c0 "-" in
      let s1 := if ascii_eqb c0 "+" || neg then rest else s in
      match ParseUint s1 bitSize with
      | (_, Some ErrSyntax) => (0, Some ErrSyntax)
      | (un, _) =>
          let cutoff := 2 ^ (bitSize - 1) in
          if negb neg && (cutoff <=? un) then (cutoff - 1, Some ErrRange)
          else if neg && (cutoff <? un) then (- cutoff, Some ErrRange)
          else (if neg then - un else un, None)
      end
  end.

End strconv.

(* ===================================================================== *)
(** * package fmt: the verbs the source uses *)
(* ===================================================================== *)

Module fmt.

Definition digit_char (d : Z) : ascii := ascii_of_N (Z.to_N (48 + d)).

(** Decimal digits of a non-negative number, most significant first,
    in front of [acc]. *)
Fixpoint utoa_aux (fuel : nat) (n : Z) (acc : string) : string :=
  match fuel with
  | O => acc
  | S fuel' =>
      let acc' := String (digit_char (n mod 10)) acc in
      if n <? 10 then acc' else utoa_aux fuel' (n / 10) acc'
  end.

Definition utoa (n : Z) : string :=
  utoa_aux (S (Z.to_nat (Z.log2 n))) n EmptyString.

(** [%d] *)
Definition itoa (n : Z) : string :=
  if n <? 0 then String "-" (utoa (- n)) else utoa n.

(** [%t] *)
Definition btoa (b : bool) : string := if b then "true" else "false".

End fmt.

(* ===================================================================== *)
(** * package net/url: QueryEscape *)
(* ===================================================================== *)

Module net_url.

(** [shouldEscape(c, encodeQueryComponent)]: everything but the
    unreserved characters is escaped in a query component. *)
Definition shouldEscape (c : ascii) : bool :=
  if is_lower c || is_upper c || is_digit c then false
  else if ascii_eqb c "-" || ascii_eqb c "_" || ascii_eqb c "." || ascii_eqb c "~"
       then false
       else true.

Definition upperhex (n : Z) : ascii :=
  match String.get (Z.to_nat n) "0123456789ABCDEF" with
  | Some c => c
  | None => "0"%char
  end.

Fixpoint QueryEscape (s : string) : string :=
  match s with
  | EmptyString => EmptyString
  | String c rest =>
      if ascii_eqb c " " then String "+" (QueryEscape rest)
      else if shouldEscape c then
        String "%" (String (upperhex (Z.shiftr (byte_of c) 4))
                   (String (upperhex (Z.land (byte_of c) 15)) (QueryEscape rest)))
      else String c (QueryEscape rest)
  end.

End net_url.

(* ===================================================================== *)
(** * package net/http: status codes, headers, requests, responses *)
(* ===================================================================== *)

Module net_http.

Definition StatusOK : Z := 200.
Definition StatusAccepted : Z := 202.
Definition StatusNoContent : Z := 204.
Definition StatusMultipleChoices : Z := 300.
Definition StatusTooManyRequests : Z := 429.

Definition MethodGet : string := "GET".

(** [http.StatusText]: the reason phrase of a status code, the empty
    string for a code the table does not know. *)
Definition StatusText (code : Z) : string :=
  match code with
  | 100 => "Continue"
  | 101 => "Switching Protocols"
  | 102 => "Processing"
  | 103 => "Early Hints"
  | 200 => "OK"
  | 201 => "Created"
  | 202 => "Accepted"
  | 203 => "Non-Authoritative Information"
  | 204 => "No Content"
  | 205 => "Reset Content"
  | 206 => "Partial Content"
  | 207 => "Multi-Status"
  | 208 => "Already Reported"
  | 226 => "IM Used"
  | 300 => "Multiple Choices"
  | 301 => "Moved Permanently"
  | 302 => "Found"
  | 303 => "See Other"
  | 304 => "Not Modified"
  | 305 => "Use Proxy"
  | 307 => "Temporary Redirect"
  | 308 => "Permanent Redirect"
  | 400 => "Bad Request"
  | 401 => "Unauthorized"
  | 402 => "Payment Required"
  | 403 => "Forbidden"
  | 404 => "Not Found"
  | 405 => "Method Not Allowed"
  | 406 => "Not Acceptable"
  | 407 => "Proxy Authentication Required"
  | 408 => "Request Timeout"
  | 409 => "Conflict"
  | 410 => "Gone"
  | 411 => "Length Required"
  | 412 => "Precondition Failed"
  | 413 => "Request Entity Too Large"
  | 414 => "Request URI Too Long"
  | 415 => "Unsupported Media Type"
  | 416 => "Requested Range Not Satisfiable"
  | 417 => "Expectation Failed"
  | 418 => "I'm a teapot"
  | 421 => "Misdirected Request"
  | 422 => "Unprocessable Entity"
  | 423 => "Locked"
  | 424 => "Failed Dependency"
  | 425 => "Too Early"
  | 426 => "Upgrade Required"
  | 428 => "Precondition Required"
  | 429 => "Too Many Requests"
  | 431 => "Request Header Fields Too Large"
  | 451 => "Unavailable For Legal Reasons"
  | 500 => "Internal Server Error"
  | 501 => "Not Implemented"
  | 502 => "Bad Gateway"
  | 503 => "Service Unavailable"
  | 504 => "Gateway Timeout"
  | 505 => "HTTP Version Not Supported"
  | 506 => "Variant Also Negotiates"
  | 507 => "Insufficient Storage"
  | 508 => "Loop Detected"
  | 510 => "Not Extended"
  | 511 => "Network Authentication Required"
  | _ => EmptyString
  end.

(** A header field name byte (an RFC 7230 token character). *)
Definition validHeaderFieldByte (c : ascii) : bool :=
  is_lower c || is_upper c || is_digit c ||
  existsb (ascii_eqb c) (list_ascii_of_string "!#$%&'*+-.^_`|~").

Definition to_upper (c : ascii) : ascii :=
  if is_lower c then ascii_of_N (Z.to_N (byte_of c - 32)) else c.

Definition to_lower (c : ascii) : ascii :=
  if is_upper c then ascii_of_N (Z.to_N (byte_of c + 32)) else c.

(** First letter and every letter after a dash in upper case, the rest
    in lower case. *)
Fixpoint canonicalize (upper : bool) (s : string) : string :=
  match s with
  | EmptyString => EmptyString
  | String c rest =>
      let c' := if upper then to_upper c else to_lower c in
      String c' (canonicalize (ascii_eqb c' "-") rest)
  end.

(** [textproto.CanonicalMIMEHeaderKey]: a key holding a byte that is no
    field name byte is returned unchanged. *)
Definition CanonicalMIMEHeaderKey (s : string) : string :=
  if forallb validHeaderFieldByte (list_ascii_of_string s)
  then canonicalize true s else s.

(** [http.Header] is [map[string][]string]. *)
Definition Header_Get (h : gmap string (list string)) (key : string) : string :=
  match h !! CanonicalMIMEHeaderKey key with
  | Some (v :: _) => v
  | _ => EmptyString
  end.

Definition Header_Add (h : gmap string (list string)) (key value : string)
  : gmap string (list string) :=
  let k := CanonicalMIMEHeaderKey key in
  <[ k := default [] (h !! k) ++ [value] ]> h.

(** A response body as the reader that [io.ReadAll] and the JSON decoder
    consume: the bytes it yields, then end of file ([None]) or a read
    error. *)
Record Body := { body_bytes : string; body_err : option string }.

Record Response := {
  StatusCode : Z;
  Header : gmap string (list string);
  ResponseBody : Body
}.

(** [*http.Request] as far as the executors set it. Both
    [http.NewRequest] and [http.NewRequestWithContext] called with
    [context.Background()] attach the background context, so the context
    is no field. [ReqBody] is [None] for a [nil] body, else the bytes the
    body was built from; how much of them a repeated round trip with the
    same request still reads is part of the transport's answer. *)
Record Request := {
  Method : string;
  URL : string;
  ReqBody : option string;
  ReqHeader : gmap string (list string)
}.

(** What [http.Client.Do] comes back with. *)
Inductive RoundTrip :=
| RoundTripErr (msg : string)
| RoundTripOk (res : Response).

(** [http.Client]. The transport is an oracle: the round trip number [n]
    of the world, made with the client's timeout, yields its outcome. *)
Record Client := {
  Transport : nat -> Z -> Request -> RoundTrip;
  Timeout : Z
}.

Definition Do (c : Client) (n : nat) (req : Request) : RoundTrip :=
  Transport c n (Timeout c) req.

End net_http.

(** [time.Second], in nanoseconds ([time.Duration] is an [int64]). *)
Definition time_Second : Z := 1000000000.

(** [a * b] on [time.Duration]. *)
Definition Duration_mul (a b : Z) : Z := wrap_i64 (a * b).

(* ===================================================================== *)
(** * What stays abstract: request construction and JSON *)
(* ===================================================================== *)

(** [http.NewRequest] fails on a method or a URL it cannot parse;
    [NewRequest_error method url] is the text of that error. *)
Class RequestBuilder := NewRequest_error : string -> string -> option string.

(** [json.NewDecoder(r).Decode(v)] for a target of type [T]: the target
    after the call, and the text of the error if there is one. *)
Class Unmarshaler (T : Type) :=
  json_Decode : net_http.Body -> T -> T * option string.

(** [json.Marshal(v)] for a value of type [B]; [None] is an error. *)
Class Marshaler (B : Type) := json_Marshal : B -> option string.

Definition NewRequest {RB : RequestBuilder} (method url : string)
    (body : option string) : net_http.Request + string :=
  match NewRequest_error method url with
  | Some e => inr e
  | None =>
      inl {| net_http.Method :=
               match method with EmptyString => "GET" | _ => method end;
             net_http.URL := url;
             net_http.ReqBody := body;
             net_http.ReqHeader := ∅ |}
  end.

(** [context.Background()] is the only context the source passes. *)
Inductive Context := context_Background.

Definition NewRequestWithContext {RB : RequestBuilder} (ctx : Context)
    (method url : string) (body : option string) : net_http.Request + string :=
  NewRequest method url body.

(** [json.NewEncoder(w).Encode(v)]: the encoding and a newline are
    written, nothing on an error. The result is what [w] holds after. *)
Definition json_Encode {B} {MB : Marshaler B} (v : B) : string :=
  match json_Marshal v with
  | Some s => s +:+ String (ascii_of_nat 10) EmptyString
  | None => EmptyString
  end.

(* ===================================================================== *)
(** * package tmdb: data model *)
(* ===================================================================== *)

(** [type Client struct]. *)
Record Client := {
  apiKey : string;
  sessionID : string;
  autoRetry : bool;
  withContext : bool;
  http : net_http.Client
}.

(** [type Error struct]: the error envelope of the API. *)
Record Error := {
  StatusMessage : string;
  Success : bool;
  StatusCode : Z
}.

(** [type Response struct]: the generic response envelope. *)
Record Response := {
  Response_StatusCode : Z;
  Response_StatusMessage : string
}.

(** The zero value of [Error] ([var clientError Error]). *)
Definition Error_zero : Error :=
  {| StatusMessage := EmptyString; Success := false; StatusCode := 0 |}.

(** Go's [error] values as the file produces them. *)
Inductive error :=
| errors_New (text : string)       (* errors.New, fmt.Errorf *)
| error_Error (e : Error)          (* an [Error] returned as an error *)
| error_transport (text : string). (* the error of [http.Client.Do], as it is *)

(** [func (e Error) Error() string]. *)
Definition Error_Error (e : Error) : string :=
  "code: " +:+ fmt.itoa (StatusCode e) +:+
  " | success: " +:+ fmt.btoa (Success e) +:+
  " | message: " +:+ StatusMessage e.

(** [err.Error()]. *)
Definition error_text (e : error) : string :=
  match e with
  | errors_New t => t
  | error_Error e => Error_Error e
  | error_transport t => t
  end.

(** The transport a zero [http.Client] uses ([http.DefaultTransport]). *)
Class Network := DefaultTransport : nat -> Z -> net_http.Request -> net_http.RoundTrip.

(** [func Init(apiKey string)], returning the new handle or an error. *)
Definition Init {NW : Network} (key : string) : Client + error :=
  match key with
  | EmptyString => inr (errors_New "APIKey is empty")
  | _ =>
      inl {| apiKey := key;
             sessionID := EmptyString;
             autoRetry := false;
             withContext := false;
             http := {| net_http.Transport := DefaultTransport;
                        net_http.Timeout := 0 |} |}
  end.

Definition set_sessionID (c : Client) (sid : string) : Client :=
  {| apiKey := apiKey c; sessionID := sid; autoRetry := autoRetry c;
     withContext := withContext c; http := http c |}.

Definition set_autoRetry (c : Client) (b : bool) : Client :=
  {| apiKey := apiKey c; sessionID := sessionID c; autoRetry := b;
     withContext := withContext c; http := http c |}.

Definition set_withContext (c : Client) (b : bool) : Client :=
  {| apiKey := apiKey c; sessionID := sessionID c; autoRetry := autoRetry c;
     withContext := b; http := http c |}.

Definition set_http (c : Client) (h : net_http.Client) : Client :=
  {| apiKey := apiKey c; sessionID := sessionID c; autoRetry := autoRetry c;
     withContext := withContext c; http := h |}.

Definition set_Timeout (c : Client) (t : Z) : Client :=
  set_http c {| net_http.Transport := net_http.Transport (http c);
                net_http.Timeout := t |}.

(** [func (c *Client) SetSessionID(sid string) error]: the handle after
    the call and the error returned. *)
Definition SetSessionID (c : Client) (sid : string) : Client * option error :=
  match sid with
  | EmptyString => (c, Some (errors_New "The SessionID is empty"))
  | _ => (set_sessionID c sid, None)
  end.

(** [func (c *Client) SetClientConfig(httpClient http.Client)]. *)
Definition SetClientConfig (c : Client) (httpClient : net_http.Client) : Client :=
  set_http c httpClient.

(** [func (c *Client) SetClientAutoRetry()]. *)
Definition SetClientAutoRetry (c : Client) : Client := set_autoRetry c true.

(** [func (c *Client) SetClientWithContext()]. *)
Definition SetClientWithContext (c : Client) : Client := set_withContext c true.

(* ===================================================================== *)
(** * Retry policy *)
(* ===================================================================== *)

Definition defaultRetryDuration : Z := Duration_mul time_Second 5.

(** [func retryDuration(resp *http.Response) time.Duration]. *)
Definition retryDuration (resp : net_http.Response) : Z :=
  let retryTime := net_http.Header_Get (net_http.Header resp) "Retry-After" in
  match retryTime with
  | EmptyString => defaultRetryDuration
  | _ =>
      match strconv.ParseInt retryTime 32 with
      | (_, Some _) => defaultRetryDuration
      | (seconds, None) => Duration_mul seconds time_Second
      end
  end.

(** [func shouldRetry(status int) bool]. *)
Definition shouldRetry (status : Z) : bool :=
  (status =? net_http.StatusAccepted) || (status =? net_http.StatusTooManyRequests).

(* ===================================================================== *)
(** * Error model *)
(* ===================================================================== *)

(** [ioutil.ReadAll(r.Body)]. *)
Definition ReadAll (b : net_http.Body) : string * option string :=
  (net_http.body_bytes b, net_http.body_err b).

(** [bytes.NewBuffer(b)] as a reader: the bytes, then end of file. *)
Definition NewBuffer (b : string) : net_http.Body :=
  {| net_http.body_bytes := b; net_http.body_err := None |}.

(** [func (c *Client) decodeError(r *http.Response) error]. *)
Definition decodeError {UE : Unmarshaler Error} (c : Client) (r : net_http.Response)
  : error :=
  match ReadAll (net_http.ResponseBody r) with
  | (_, Some err) => errors_New ("could not read body response: " +:+ err)
  | (resBody, None) =>
      if len resBody =? 0 then
        errors_New ("[" +:+ fmt.itoa (net_http.StatusCode r) +:+ "]: empty body " +:+
                    net_http.StatusText (net_http.StatusCode r))
      else
        let buf := NewBuffer resBody in
        match json_Decode buf Error_zero with
        | (_, Some _) =>
            errors_New ("couldn't decode error: (" +:+ fmt.itoa (len resBody) +:+
                        ") [" +:+ resBody +:+ "]")
        | (clientError, None) => error_Error clientError
        end
  end.

(* ===================================================================== *)
(** * Request executors *)
(* ===================================================================== *)

(** What a call does to the world, in order. [EvSend n t req]: round trip
    number [n], made with timeout [t]; [EvSleep d]: [time.Sleep(d)];
    [EvClose n]: the deferred [Body.Close()] of response [n]. *)
Inductive Event :=
| EvSend (n : nat) (timeout : Z) (req : net_http.Request)
| EvSleep (d : Z)
| EvClose (n : nat).

(** A call that returned: the handle and the decode target after it, the
    error returned, the number of the world's next round trip, and what
    the call did. *)
Record Outcome (T : Type) := {
  out_client : Client;
  out_data : T;
  out_err : option error;
  out_sent : nat;
  out_events : list Event
}.

Arguments out_client {T} _.
Arguments out_data {T} _.
Arguments out_err {T} _.
Arguments out_sent {T} _.
Arguments out_events {T} _.

(** A call run for a bounded number of loop iterations: it returned, or
    it is still in its loop, having done [events]. *)
Inductive Run (T : Type) :=
| Done (o : Outcome T)
| OutOfFuel (events : list Event).

Arguments Done {T} _.
Arguments OutOfFuel {T} _.

(** One pass through the body of a [for] loop: [continue] after
    [time.Sleep(d)], or leave the function. *)
Inductive Step (T : Type) :=
| Continue (d : Z)
| Return (data : T) (err : option error).

Arguments Continue {T} _.
Arguments Return {T} _ _.

Definition prepend {T} (evs : list Event) (r : Run T) : Run T :=
  match r with
  | Done o =>
      Done {| out_client := out_client o; out_data := out_data o;
              out_err := out_err o; out_sent := out_sent o;
              out_events := evs ++ out_events o |}
  | OutOfFuel evs' => OutOfFuel (evs ++ evs')
  end.

(** [defer res.Body.Close()] follows the error check: a round trip that
    failed defers nothing. *)
Definition deferred_after (c : Client) (req : net_http.Request) (n : nat)
    (deferred : list nat) : list nat :=
  match net_http.Do (http c) n req with
  | net_http.RoundTripOk _ => n :: deferred
  | net_http.RoundTripErr _ => deferred
  end.

(** The [for { ... }] loop both executors are written with. [iter] is the
    loop body after [c.http.Do(req)]; [deferred] lists the responses whose
    [Body.Close()] is deferred, the last one first, as they run when the
    function returns. *)
Fixpoint for_loop {T} (fuel : nat) (iter : net_http.RoundTrip -> Step T)
    (c : Client) (req : net_http.Request) (n : nat) (deferred : list nat)
  : Run T :=
  match fuel with
  | O => OutOfFuel []
  | S fuel' =>
      let rt := net_http.Do (http c) n req in
      let send := EvSend n (net_http.Timeout (http c)) req in
      let deferred' := deferred_after c req n deferred in
      match iter rt with
      | Continue d =>
          prepend [send; EvSleep d] (for_loop fuel' iter c req (S n) deferred')
      | Return data err =>
          Done {| out_client := c; out_data := data; out_err := err;
                  out_sent := S n;
                  out_events := send :: map EvClose deferred' |}
      end
  end.

(** The handle after [if c.http.Timeout == 0 { c.http.Timeout = time.Second * 10 }]. *)
Definition default_timeout (c : Client) : Client :=
  if net_http.Timeout (http c) =? 0
  then set_Timeout c (Duration_mul time_Second 10)
  else c.

Definition content_type : string := "application/json;charset=utf-8".

Definition add_content_type (req : net_http.Request) : net_http.Request :=
  {| net_http.Method := net_http.Method req;
     net_http.URL := net_http.URL req;
     net_http.ReqBody := net_http.ReqBody req;
     net_http.ReqHeader :=
       net_http.Header_Add (net_http.ReqHeader req) "content-type" content_type |}.

(** A return before the loop: no round trip was made. *)
Definition early {T} (c : Client) (data : T) (n : nat) (e : error) : Run T :=
  Done {| out_client := c; out_data := data; out_err := Some e;
          out_sent := n; out_events := [] |}.

Section Executors.
Context {RB : RequestBuilder} {UE : Unmarshaler Error}.
Context {T : Type} {UT : Unmarshaler T}.

(** The body of the loop of [get], lines 157-182. *)
Definition get_iter (c : Client) (data : T) (rt : net_http.RoundTrip) : Step T :=
  match rt with
  | net_http.RoundTripErr err => Return data (Some (error_transport err))
  | net_http.RoundTripOk res =>
      if (net_http.StatusCode res =? net_http.StatusTooManyRequests) && autoRetry c
      then Continue (retryDuration res)
      else if net_http.StatusCode res =? net_http.StatusNoContent
      then Return data None
      else if negb (net_http.StatusCode res =? net_http.StatusOK)
      then Return data (Some (decodeError c res))
      else
        match json_Decode (net_http.ResponseBody res) data with
        | (data', Some err) =>
            Return data' (Some (errors_New ("could not decode the data: " +:+ err)))
        | (data', None) => Return data' None
        end
  end.

(** [func (c *Client) get(url string, data interface{}) error]. [n] is
    the number of the world's next round trip. *)
Definition get (fuel : nat) (c : Client) (n : nat) (url : string) (data : T)
  : Run T :=
  match url with
  | EmptyString => early c data n (errors_New "url field is empty")
  | _ =>
      let c := default_timeout c in
      let r := NewRequest net_http.MethodGet url None in
      let r := if withContext c
               then NewRequestWithContext context_Background net_http.MethodGet url None
               else r in
      match r with
      | inr err => early c data n (errors_New ("could not fetch the url: " +:+ err))
      | inl req => for_loop fuel (get_iter c data) c (add_content_type req) n []
      end
  end.

(** The body of the loop of [request], lines 225-249. *)
Definition request_iter (c : Client) (data : T) (rt : net_http.RoundTrip) : Step T :=
  match rt with
  | net_http.RoundTripErr err => Return data (Some (errors_New err))
  | net_http.RoundTripOk res =>
      if autoRetry c && shouldRetry (net_http.StatusCode res)
      then Continue (retryDuration res)
      else if (net_http.StatusMultipleChoices <=? net_http.StatusCode res) ||
              (net_http.StatusCode res <? net_http.StatusOK) ||
              (net_http.StatusCode res =? net_http.StatusNoContent)
      then Return data (Some (decodeError c res))
      else
        match json_Decode (net_http.ResponseBody res) data with
        | (data', Some err) =>
            Return data' (Some (errors_New ("could not decode the data: " +:+ err)))
        | (data', None) => Return data' None
        end
  end.

(** [func (c *Client) request(url string, body interface{}, method string,
    data interface{}) error]. *)
Definition request {B : Type} {MB : Marshaler B} (fuel : nat) (c : Client) (n : nat)
    (url : string) (body : B) (method : string) (data : T) : Run T :=
  match url with
  | EmptyString => early c data n (errors_New "url field is empty")
  | _ =>
      let c := default_timeout c in
      let bodyBytes := json_Encode body in
      let r := NewRequest method url (Some bodyBytes) in
      let r := if withContext c
               then NewRequestWithContext context_Background method url (Some bodyBytes)
               else r in
      match r with
      | inr err => early c data n (errors_New ("could not fetch the url: " +:+ err))
      | inl req => for_loop fuel (request_iter c data) c (add_content_type req) n []
      end
  end.

End Executors.

(* ===================================================================== *)
(** * Option formatting *)
(* ===================================================================== *)

(** The body of the [range] loop of [fmtOptions], run over the entries in
    the order [order]. *)
Definition fmtOptions_range (order : list (string * string)) : string :=
  fold_left
    (fun options kv => options +:+ ("&" +:+ fst kv +:+ "=" +:+ net_url.QueryEscape (snd kv)))
    order EmptyString.

(** Go leaves the order in which [range] visits a map unspecified: any
    arrangement of the entries can be the one a call sees. *)
Definition iteration_order (urlOptions : gmap string string)
    (order : list (string * string)) : Prop :=
  order ≡ₚ map_to_list urlOptions.

(** [func (c *Client) fmtOptions(urlOptions map[string]string) string],
    for the iteration order the call sees. *)
Definition fmtOptions (c : Client) (urlOptions : gmap string string)
    (order : list (string * string)) : string :=
  if 0 <? Z.of_nat (size urlOptions) then fmtOptions_range order else EmptyString.

(* ===================================================================== *)
(** * A JSON reader, for running the executors on concrete bodies *)
(* ===================================================================== *)

(** A model of [encoding/json]'s [Decoder.Decode] into the structs of
    this package: the scanner's grammar, string unquoting (escapes,
    surrogate pairs, coercion to well-formed UTF-8), the nesting limit,
    key matching under case folding, and the assignment of a member to a
    field of type [string], [bool] or [int]. The texts of the library's
    syntax and type errors are not reproduced: such an error has a fixed
    text here. The executors never depend on this module; it instantiates
    [Unmarshaler] for the concrete runs further down. *)
Module json.

#[local] Set Warnings "-register-all".

Inductive Value :=
| Null
| Bool (b : bool)
| Number (lit : string)
| Str (s : string)
| Array (items : list Value)
| Object (members : list (string * Value)).

(** Reading a prefix of the input: a result and the rest, the input ended
    too early, or it is no JSON. *)
Inductive Res (A : Type) :=
| Ok (a : A) (rest : string)
| Incomplete
| Invalid.

Arguments Ok {A} _ _.
Arguments Incomplete {A}.
Arguments Invalid {A}.

Definition isSpace (c : ascii) : bool :=
  ascii_eqb c " " || (byte_of c =? 9) || (byte_of c =? 13) || (byte_of c =? 10).

Fixpoint skip_ws (s : string) : string :=
  match s with
  | String c rest => if isSpace c then skip_ws rest else s
  | EmptyString => s
  end.

(** [lit] is expected next, its first byte already read. *)
Fixpoint expect (lit s : string) : Res unit :=
  match lit, s with
  | EmptyString, _ => Ok tt s
  | String _ _, EmptyString => Incomplete
  | String a lit', String b s' => if ascii_eqb a b then expect lit' s' else Invalid
  end.

(** The longest run of digits in front of [s] and what follows it. *)
Fixpoint digits (s : string) : string * string :=
  match s with
  | String c rest =>
      if is_digit c then let '(d, r) := digits rest in (String c d, r)
      else (EmptyString, s)
  | EmptyString => (EmptyString, s)
  end.

(** One or more digits. *)
Definition digits1 (s : string) : Res string :=
  match s with
  | EmptyString => Incomplete
  | String c _ => if is_digit c then let '(d, r) := digits s in Ok d r else Invalid
  end.

Definition lex_exp (s : string) : Res string :=
  match s with
  | String c rest =>
      if ascii_eqb c "e" || ascii_eqb c "E" then
        match rest with
        | EmptyString => Incomplete
        | String sg rest' =>
            if ascii_eqb sg "+" || ascii_eqb sg "-" then
              match digits1 rest' with
              | Ok d r => Ok (String c (String sg d)) r
              | Incomplete => Incomplete
              | Invalid => Invalid
              end
            else
              match digits1 rest with
              | Ok d r => Ok (String c d) r
              | Incomplete => Incomplete
              | Invalid => Invalid
              end
        end
      else Ok EmptyString s
  | EmptyString => Ok EmptyString s
  end.

Definition lex_frac (s : string) : Res string :=
  match s with
  | String c rest =>
      if ascii_eqb c "." then
        match digits1 rest with
        | Ok d r => Ok (String c d) r
        | Incomplete => Incomplete
        | Invalid => Invalid
        end
      else Ok EmptyString s
  | EmptyString => Ok EmptyString s
  end.

Definition lex_int (s : string) : Res string :=
  match s with
  | EmptyString => Incomplete
  | String c rest =>
      if ascii_eqb c "0" then Ok "0" rest
      else if is_digit c then let '(d, r) := digits s in Ok d r
      else Invalid
  end.

(** A number literal: an optional minus, then 0 or a run of digits that
    does not start with 0, then an optional fraction (a dot and digits)
    and an optional exponent (e or E, an optional sign, digits). *)
Definition lex_number (s : string) : Res string :=
  let '(sign, s1) :=
    match s with
    | String c rest => if ascii_eqb c "-" then ("-", rest) else (EmptyString, s)
    | EmptyString => (EmptyString, s)
    end in
  match lex_int s1 with
  | Ok i s2 =>
      match lex_frac s2 with
      | Ok f s3 =>
          match lex_exp s3 with
          | Ok e s4 => Ok (sign +:+ i +:+ f +:+ e) s4
          | Incomplete => Incomplete
          | Invalid => Invalid
          end
      | Incomplete => Incomplete
      | Invalid => Invalid
      end
  | Incomplete => Incomplete
  | Invalid => Invalid
  end.

Definition hexval (c : ascii) : option Z :=
  let x := byte_of c in
  if is_digit c then Some (x - 48)
  else if (97 <=? x) && (x <=? 102) then Some (x - 87)
  else if (65 <=? x) && (x <=? 70) then Some (x - 55)
  else None.

(** Four hexadecimal digits. *)
Definition hex4 (s : string) : Res Z :=
  match s with
  | String a (String b (String c (String d rest))) =>
      match hexval a, hexval b, hexval c, hexval d with
      | Some a, Some b, Some c, Some d => Ok (((a * 16 + b) * 16 + c) * 16 + d) rest
      | _, _, _, _ => Invalid
      end
  | String a (String b (String c EmptyString)) =>
      match hexval a, hexval b, hexval c with
      | Some _, Some _, Some _ => Incomplete
      | _, _, _ => Invalid
      end
  | String a (String b EmptyString) =>
      match hexval a, hexval b with
      | Some _, Some _ => Incomplete
      | _, _ => Invalid
      end
  | String a EmptyString =>
      match hexval a with
      | Some _ => Incomplete
      | _ => Invalid
      end
  | EmptyString => Incomplete
  end.

Definition chr (x : Z) : ascii := ascii_of_N (Z.to_N x).

(** [utf8.EncodeRune]. *)
Definition EncodeRune (r : Z) : string :=
  if r <? 128 then String (chr r) EmptyString
  else if r <? 2048 then
    String (chr (192 + r / 64)) (String (chr (128 + r mod 64)) EmptyString)
  else if r <? 65536 then
    String (chr (224 + r / 4096))
      (String (chr (128 + (r / 64) mod 64)) (String (chr (128 + r mod 64)) EmptyString))
  else
    String (chr (240 + r / 262144))
      (String (chr (128 + (r / 4096) mod 64))
         (String (chr (128 + (r / 64) mod 64)) (String (chr (128 + r mod 64)) EmptyString))).

Definition ReplacementChar : Z := 65533.

Definition between (lo x hi : Z) : bool := (lo <=? x) && (x <=? hi).

Definition cont (c : ascii) : bool := between 128 (byte_of c) 191.

(** The length of the well-formed UTF-8 sequence in front of [s], 0 when
    there is none. *)
Definition utf8_len (s : string) : nat :=
  match s with
  | EmptyString => 0%nat
  | String b0 r =>
      let x := byte_of b0 in
      if x <? 128 then 1%nat
      else if between 194 x 223 then
        match r with
        | String b1 _ => if cont b1 then 2%nat else 0%nat
        | _ => 0%nat
        end
      else if between 224 x 239 then
        match r with
        | String b1 (String b2 _) =>
            let lo := if x =? 224 then 160 else 128 in
            let hi := if x =? 237 then 159 else 191 in
            if between lo (byte_of b1) hi && cont b2 then 3%nat else 0%nat
        | _ => 0%nat
        end
      else if between 240 x 244 then
        match r with
        | String b1 (String b2 (String b3 _)) =>
            let lo := if x =? 240 then 144 else 128 in
            let hi := if x =? 244 then 143 else 191 in
            if between lo (byte_of b1) hi && cont b2 && cont b3 then 4%nat else 0%nat
        | _ => 0%nat
        end
      else 0%nat
  end.

Definition take (n : nat) (s : string) : string := String.substring 0 n s.

Definition drop (n : nat) (s : string) : string :=
  String.substring n (String.length s - n) s.

Definition isSurrogate (r : Z) : bool := between 55296 r 57343.

(** [utf16.DecodeRune]. *)
Definition utf16_DecodeRune (r1 r2 : Z) : Z :=
  if between 55296 r1 56319 && between 56320 r2 57343
  then (r1 - 55296) * 1024 + (r2 - 56320) + 65536
  else ReplacementChar.

(** [getu4]: the code unit of a [\uXXXX] in front of [s], -1 if there is
    none. *)
Definition getu4 (s : string) : Z :=
  match s with
  | String a (String b rest) =>
      if ascii_eqb a "\" && ascii_eqb b "u" then
        match hex4 rest with
        | Ok r _ => r
        | _ => -1
        end
      else -1
  | _ => -1
  end.

(** A string literal after its opening quote, unquoted. *)
Fixpoint lex_string (fuel : nat) (s : string) (acc : string) : Res string :=
  match fuel with
  | O => Invalid
  | S fuel' =>
      match s with
      | EmptyString => Incomplete
      | String c rest =>
          if ascii_eqb c dquote then Ok acc rest
          else if ascii_eqb c "\" then
            match rest with
            | EmptyString => Incomplete
            | String e rest' =>
                let simple (b : ascii) := lex_string fuel' rest' (acc +:+ String b EmptyString) in
                if ascii_eqb e dquote || ascii_eqb e "\" || ascii_eqb e "/" then simple e
                else if ascii_eqb e "b" then simple (chr 8)
                else if ascii_eqb e "f" then simple (chr 12)
                else if ascii_eqb e "n" then simple (chr 10)
                else if ascii_eqb e "r" then simple (chr 13)
                else if ascii_eqb e "t" then simple (chr 9)
                else if ascii_eqb e "u" then
                  match hex4 rest' with
                  | Ok rr after =>
                      if isSurrogate rr then
                        let dec := utf16_DecodeRune rr (getu4 after) in
                        if dec =? ReplacementChar
                        then lex_string fuel' after (acc +:+ EncodeRune ReplacementChar)
                        else lex_string fuel' (drop 6 after) (acc +:+ EncodeRune dec)
                      else lex_string fuel' after (acc +:+ EncodeRune rr)
                  | Incomplete => Incomplete
                  | Invalid => Invalid
                  end
                else Invalid
            end
          else if byte_of c <? 32 then Invalid
          else
            match utf8_len s with
            | O => lex_string fuel' rest (acc +:+ EncodeRune ReplacementChar)
            | n => lex_string fuel' (drop n s) (acc +:+ take n s)
            end
      end
  end.

Definition maxNestingDepth : Z := 10000.

(** A value; [members] and [elements] read the inside of an object and of
    an array, from the place where a key or an element has to start. *)
Fixpoint value (fuel : nat) (depth : Z) (s : string) {struct fuel} : Res Value :=
  match fuel with
  | O => Invalid
  | S fuel' =>
      match skip_ws s with
      | EmptyString => Incomplete
      | String c rest =>
          if ascii_eqb c "{" then
            if maxNestingDepth <? depth + 1 then Invalid
            else
              match skip_ws rest with
              | EmptyString => Incomplete
              | String c1 rest1 =>
                  if ascii_eqb c1 "}" then Ok (Object []) rest1
                  else members fuel' (depth + 1) rest []
              end
          else if ascii_eqb c "[" then
            if maxNestingDepth <? depth + 1 then Invalid
            else
              match skip_ws rest with
              | EmptyString => Incomplete
              | String c1 rest1 =>
                  if ascii_eqb c1 "]" then Ok (Array []) rest1
                  else elements fuel' (depth + 1) rest []
              end
          else if ascii_eqb c dquote then
            match lex_string (S (String.length rest)) rest EmptyString with
            | Ok str r => Ok (Str str) r
            | Incomplete => Incomplete
            | Invalid => Invalid
            end
          else if ascii_eqb c "-" || is_digit c then
            match lex_number (String c rest) with
            | Ok lit r => Ok (Number lit) r
            | Incomplete => Incomplete
            | Invalid => Invalid
            end
          else if ascii_eqb c "t" then
            match expect "rue" rest with
            | Ok _ r => Ok (Bool true) r
            | Incomplete => Incomplete
            | Invalid => Invalid
            end
          else if ascii_eqb c "f" then
            match expect "alse" rest with
            | Ok _ r => Ok (Bool false) r
            | Incomplete => Incomplete
            | Invalid => Invalid
            end
          else if ascii_eqb c "n" then
            match expect "ull" rest with
            | Ok _ r => Ok Null r
            | Incomplete => Incomplete
            | Invalid => Invalid
            end
          else Invalid
      end
  end
with members (fuel : nat) (depth : Z) (s : string) (acc : list (string * Value))
    {struct fuel} : Res Value :=
  match fuel with
  | O => Invalid
  | S fuel' =>
      match skip_ws s with
      | EmptyString => Incomplete
      | String c rest =>
          if ascii_eqb c dquote then
            match lex_string (S (String.length rest)) rest EmptyString with
            | Ok key r1 =>
                match skip_ws r1 with
                | EmptyString => Incomplete
                | String c1 r2 =>
                    if ascii_eqb c1 ":" then
                      match value fuel' depth r2 with
                      | Ok v r3 =>
                          match skip_ws r3 with
                          | EmptyString => Incomplete
                          | String c2 r4 =>
                              if ascii_eqb c2 "," then members fuel' depth r4 (acc ++ [(key, v)])
                              else if ascii_eqb c2 "}" then Ok (Object (acc ++ [(key, v)])) r4
                              else Invalid
                          end
                      | Incomplete => Incomplete
                      | Invalid => Invalid
                      end
                    else Invalid
                end
            | Incomplete => Incomplete
            | Invalid => Invalid
            end
          else Invalid
      end
  end
with elements (fuel : nat) (depth : Z) (s : string) (acc : list Value)
    {struct fuel} : Res Value :=
  match fuel with
  | O => Invalid
  | S fuel' =>
      match value fuel' depth s with
      | Ok v r1 =>
          match skip_ws r1 with
          | EmptyString => Incomplete
          | String c r2 =>
              if ascii_eqb c "," then elements fuel' depth r2 (acc ++ [v])
              else if ascii_eqb c "]" then Ok (Array (acc ++ [v])) r2
              else Invalid
          end
      | Incomplete => Incomplete
      | Invalid => Invalid
      end
  end.

(** Errors of [Decode]. *)
Inductive DecodeError :=
| EOF
| UnexpectedEOF
| SyntaxError
| ReadError (text : string)
| UnmarshalTypeError.

Definition DecodeError_text (e : DecodeError) : string :=
  match e with
  | EOF => "EOF"
  | UnexpectedEOF => "unexpected EOF"
  | SyntaxError => "invalid character in JSON input"
  | ReadError t => t
  | UnmarshalTypeError => "json: cannot unmarshal value into Go value"
  end.

Definition is_composite (v : Value) : bool :=
  match v with
  | Array _ | Object _ => true
  | _ => false
  end.

(** [Decoder.readValue]: the next value of the stream. An object or an
    array ends with its closing bracket; any other value ends at a space
    or at the end of the stream, and nothing else may follow it. A read
    error is reported once the bytes read so far hold no whole value. *)
Definition readValue (b : net_http.Body) : Value + DecodeError :=
  let s := net_http.body_bytes b in
  let at_end (complete : option Value) :=
    match net_http.body_err b with
    | Some e => inr (ReadError e)
    | None =>
        match complete with
        | Some v => inl v
        | None =>
            match skip_ws s with
            | EmptyString => inr EOF
            | _ => inr UnexpectedEOF
            end
        end
    end in
  match value (2 * String.length s + 2) 0 s with
  | Ok v rest =>
      if is_composite v then inl v
      else
        match rest with
        | EmptyString => at_end (Some v)
        | String c _ => if isSpace c then inl v else inr SyntaxError
        end
  | Incomplete => at_end None
  | Invalid => inr SyntaxError
  end.

(** The smallest rune of the fold orbit of each rune of a key, for keys
    compared with ASCII field names: ASCII letters in upper case, the
    long s (U+017F) as S and the Kelvin sign (U+212A) as K. *)
Fixpoint foldName (fuel : nat) (s : string) : string :=
  match fuel with
  | O => s
  | S fuel' =>
      match s with
      | EmptyString => EmptyString
      | String a rest =>
          match byte_of a, rest with
          | 197, String b rest' =>
              if byte_of b =? 191 then String "S" (foldName fuel' rest')
              else String a (foldName fuel' rest)
          | 226, String b (String c rest') =>
              if (byte_of b =? 132) && (byte_of c =? 170)
              then String "K" (foldName fuel' rest')
              else String a (foldName fuel' rest)
          | _, _ => String (net_http.to_upper a) (foldName fuel' rest)
          end
      end
  end.

Definition fold (s : string) : string := foldName (String.length s) s.

(** The field a key names: the one it equals, else the first it equals
    under case folding. *)
Definition find_field (names : list string) (key : string) : option string :=
  match List.find (String.eqb key) names with
  | Some f => Some f
  | None => List.find (fun f => String.eqb (fold f) (fold key)) names
  end.

(** Storing a value into a field: [None] leaves the field as it is
    ([null]), [inr] is a type error. *)
Definition as_string (v : Value) : option string + unit :=
  match v with
  | Str s => inl (Some s)
  | Null => inl None
  | _ => inr tt
  end.

Definition as_bool (v : Value) : option bool + unit :=
  match v with
  | Bool b => inl (Some b)
  | Null => inl None
  | _ => inr tt
  end.

Definition as_int (v : Value) : option Z + unit :=
  match v with
  | Number lit =>
      match strconv.ParseInt lit 64 with
      | (n, None) => inl (Some n)
      | _ => inr tt
      end
  | Null => inl None
  | _ => inr tt
  end.

(** Decoding into a struct whose fields are named [names]: [store] puts
    the value of a member into its field. The members are stored in
    order; a type error is remembered (the first one) and decoding goes
    on. *)
Definition unmarshal_struct {S : Type} (names : list string)
    (store : string -> Value -> S -> S + unit) (v : Value) (target : S)
  : S * option DecodeError :=
  match v with
  | Null => (target, None)
  | Object ms =>
      fold_left
        (fun st kv =>
           match find_field names (fst kv) with
           | None => st
           | Some f =>
               match store f (snd kv) (fst st) with
               | inl t' => (t', snd st)
               | inr _ =>
                   (fst st, match snd st with
                            | None => Some UnmarshalTypeError
                            | e => e
                            end)
               end
           end)
        ms (target, None)
  | _ => (target, Some UnmarshalTypeError)
  end.

Definition Decode_struct {S : Type} (names : list string)
    (store : string -> Value -> S -> S + unit) (b : net_http.Body) (target : S)
  : S * option string :=
  match readValue b with
  | inr e => (target, Some (DecodeError_text e))
  | inl v =>
      let '(t, e) := unmarshal_struct names store v target in
      (t, option_map DecodeError_text e)
  end.

End json.

(** [Error]'s fields by their JSON names. *)
Definition Error_store (f : string) (v : json.Value) (e : Error) : Error + unit :=
  if String.eqb f "status_message" then
    match json.as_string v with
    | inl (Some s) => inl {| StatusMessage := s; Success := Success e; StatusCode := StatusCode e |}
    | inl None => inl e
    | inr _ => inr tt
    end
  else if String.eqb f "success" then
    match json.as_bool v with
    | inl (Some b) => inl {| StatusMessage := StatusMessage e; Success := b; StatusCode := StatusCode e |}
    | inl None => inl e
    | inr _ => inr tt
    end
  else
    match json.as_int v with
    | inl (Some n) => inl {| StatusMessage := StatusMessage e; Success := Success e; StatusCode := n |}
    | inl None => inl e
    | inr _ => inr tt
    end.

Definition Error_Decode : Unmarshaler Error :=
  json.Decode_struct ["status_message"; "success"; "status_code"] Error_store.

(** [Response]'s fields by their JSON names. *)
Definition Response_store (f : string) (v : json.Value) (r : Response)
  : Response + unit :=
  if String.eqb f "status_code" then
    match json.as_int v with
    | inl (Some n) =>
        inl {| Response_StatusCode := n; Response_StatusMessage := Response_StatusMessage r |}
    | inl None => inl r
    | inr _ => inr tt
    end
  else
    match json.as_string v with
    | inl (Some s) =>
        inl {| Response_StatusCode := Response_StatusCode r; Response_StatusMessage := s |}
    | inl None => inl r
    | inr _ => inr tt
    end.

Definition Response_Decode : Unmarshaler Response :=
  json.Decode_struct ["status_code"; "status_message"] Response_store.

(* ===================================================================== *)
(** * Observing a run *)
(* ===================================================================== *)

Definition run_events {T} (r : Run T) : list Event :=
  match r with
  | Done o => out_events o
  | OutOfFuel evs => evs
  end.

Definition is_send (e : Event) : bool :=
  match e with
  | EvSend _ _ _ => true
  | _ => false
  end.

(** The number of times [c.http.Do] was called. *)
Definition count_sends (evs : list Event) : nat :=
  length (List.filter is_send evs).


(** The request [get] sends for [url]. *)
Definition get_req (url : string) : net_http.Request :=
  add_content_type
    {| net_http.Method := "GET"; net_http.URL := url;
       net_http.ReqBody := None; net_http.ReqHeader := ∅ |}.

(** The request [request] sends for [url], [method] and the encoded body. *)
Definition request_req (method url bodyBytes : string) : net_http.Request :=
  add_content_type
    {| net_http.Method := match method with EmptyString => "GET" | _ => method end;
       net_http.URL := url;
       net_http.ReqBody := Some bodyBytes; net_http.ReqHeader := ∅ |}.

(** The response that makes [get] go round its loop again. *)
Definition get_retries (c : Client) (rt : net_http.RoundTrip) : bool :=
  match rt with
  | net_http.RoundTripOk res =>
      (net_http.StatusCode res =? 429) && autoRetry c
  | net_http.RoundTripErr _ => false
  end.

(** The response that makes [request] go round its loop again. *)
Definition request_retries (c : Client) (rt : net_http.RoundTrip) : bool :=
  match rt with
  | net_http.RoundTripOk res =>
      autoRetry c && ((net_http.StatusCode res =? 202) || (net_http.StatusCode res =? 429))
  | net_http.RoundTripErr _ => false
  end.

(** The answer is a response whose status is one of [codes]. *)
Definition answer_status_in (codes : list Z) (rt : net_http.RoundTrip) : bool :=
  match rt with
  | net_http.RoundTripOk res => existsb (Z.eqb (net_http.StatusCode res)) codes
  | net_http.RoundTripErr _ => false
  end.

(** The handle an executor leaves when it returns: a call with an empty
    URL returns before the timeout default is applied. *)
Definition handle_after (c : Client) (url : string) : Client :=
  match url with
  | EmptyString => c
  | _ => default_timeout c
  end.

Definition is_Continue {T} (s : Step T) : bool :=
  match s with
  | Continue _ => true
  | Return _ _ => false
  end.

(* ===================================================================== *)
(** * Decimal literals, as the specification reads a Retry-After value *)
(* ===================================================================== *)

Fixpoint all_digits (s : string) : bool :=
  match s with
  | EmptyString => true
  | String c rest => is_digit c && all_digits rest
  end.

(** The number a run of digits denotes, continuing from [acc]. *)
Fixpoint decimal_value (s : string) (acc : Z) : Z :=
  match s with
  | EmptyString => acc
  | String c rest => decimal_value rest (acc * 10 + (byte_of c - 48))
  end.

(** One or more digits. *)
Definition unsigned_decimal (s : string) : option Z :=
  match s with
  | EmptyString => None
  | _ => if all_digits s then Some (decimal_value s 0) else None
  end.

(** An optional sign, then one or more digits. *)
Definition signed_decimal (s : string) : option Z :=
  match s with
  | EmptyString => None
  | String c rest =>
      if ascii_eqb c "-" then option_map Z.opp (unsigned_decimal rest)
      else if ascii_eqb c "+" then unsigned_decimal rest
      else unsigned_decimal s
  end.

(** The seconds a Retry-After value asks for: a signed decimal literal
    that fits 32 bits. *)
Definition retry_after_seconds (h : string) : option Z :=
  match signed_decimal h with
  | Some n => if (- 2 ^ 31 <=? n) && (n <? 2 ^ 31) then Some n else None
  | None => None
  end.

(* ===================================================================== *)
(** * Substrings, as the specification reads a formatted option string *)
(* ===================================================================== *)

Fixpoint has_prefix (p s : string) : bool :=
  match p, s with
  | EmptyString, _ => true
  | String _ _, EmptyString => false
  | String a p', String b s' => ascii_eqb a b && has_prefix p' s'
  end.

(** The number of places of [s] at which [p] occurs. *)
Fixpoint count_substring (p s : string) : nat :=
  match s with
  | EmptyString => if has_prefix p s then 1%nat else 0%nat
  | String _ rest => ((if has_prefix p s then 1 else 0) + count_substring p rest)%nat
  end.

(** The strings of [l], one after the other. *)
Definition concat_strings (l : list string) : string :=
  fold_right String.append EmptyString l.

(** [&key=url-escaped-value]. *)
Definition option_entry (kv : string * string) : string :=
  "&" +:+ fst kv +:+ "=" +:+ net_url.QueryEscape (snd kv).

(* ===================================================================== *)
(** * Fixtures: scripted transports and concrete bodies *)
(* ===================================================================== *)

(** A request builder that accepts every method and URL. *)
Definition accept_all : RequestBuilder := fun _ _ => None.

(** A transport that answers round trip [n] with the [n]-th entry of the
    script, and with a connection error after its end. *)
Definition scripted (script : list net_http.RoundTrip)
  : nat -> Z -> net_http.Request -> net_http.RoundTrip :=
  fun n _ _ => nth n script (net_http.RoundTripErr "connection refused").

(** A transport that gives the same answer every time. *)
Definition always (rt : net_http.RoundTrip)
  : nat -> Z -> net_http.Request -> net_http.RoundTrip :=
  fun _ _ _ => rt.

Definition mock_response (status : Z) (retryAfter : list string) (body : string)
  : net_http.Response :=
  {| net_http.StatusCode := status;
     net_http.Header :=
       match retryAfter with
       | [] => ∅
       | _ => {[ "Retry-After" := retryAfter ]}
       end;
     net_http.ResponseBody := NewBuffer body |}.

Definition answers (rs : list net_http.Response) : list net_http.RoundTrip :=
  map net_http.RoundTripOk rs.

Definition mock_client (retry : bool)
    (transport : nat -> Z -> net_http.Request -> net_http.RoundTrip) : Client :=
  {| apiKey := "k"; sessionID := EmptyString; autoRetry := retry;
     withContext := false;
     http := {| net_http.Transport := transport; net_http.Timeout := 0 |} |}.

(** [s] between double quotes. *)
Definition quoted (s : string) : string :=
  String dquote (s +:+ String dquote EmptyString).

(** The JSON text of an error envelope. *)
Definition envelope (message : string) (success : bool) (code : Z) : string :=
  "{" +:+ quoted "status_message" +:+ ":" +:+ quoted message +:+ "," +:+
  quoted "success" +:+ ":" +:+ fmt.btoa success +:+ "," +:+
  quoted "status_code" +:+ ":" +:+ fmt.itoa code +:+ "}".

(** The JSON text of a generic response envelope. *)
Definition response_json (code : Z) (message : string) : string :=
  "{" +:+ quoted "status_code" +:+ ":" +:+ fmt.itoa code +:+ "," +:+
  quoted "status_message" +:+ ":" +:+ quoted message +:+ "}".

Definition movie_url : string := "https://api.themoviedb.org/3/movie/550?api_key=k".

Definition Response_zero : Response :=
  {| Response_StatusCode := 0; Response_StatusMessage := EmptyString |}.

(** [json.Marshal(nil)]. *)
Definition nil_Marshal : Marshaler unit := fun _ => Some "null".

(** The options of the specification's example: a = "1 2", b = "x". *)
Definition example_options : gmap string string :=
  <[ "a" := "1 2" ]> (<[ "b" := "x" ]> ∅).

(** A 429 that asks for three seconds. *)
Definition busy_3s : net_http.Response := mock_response 429 ["3"] EmptyString.

(** Two 202 responses, one without a body and one with. *)
Definition accepted_empty : net_http.Response := mock_response 202 ["1"] EmptyString.

Definition accepted_queued : net_http.Response :=
  mock_response 202 ["1"] (response_json 12 "queued").

(** A 429 as the API sends it: the envelope states the API's own code 25. *)
Definition over_limit : net_http.Response :=
  mock_response 429 ["1"]
    (envelope "Your request count (41) is over the allowed limit of 40." false 25).

Definition fight_club : net_http.Response :=
  mock_response 200 [] (response_json 1 "Success.").

Definition no_content_response : net_http.Response := mock_response 204 [] EmptyString.

(** The network of the fixtures: nothing answers. *)
Definition no_network : Network := scripted [].

Definition is_sleep (e : Event) : bool :=
  match e with
  | EvSleep _ => true
  | _ => false
  end.

Definition maxUint32 : Z := 2 ^ 32 - 1.

(** Comparisons on [Z] that sit in hypotheses as booleans, as
    propositions. *)
Ltac Zbool :=
  repeat match goal with
         | H : (_ && _) = true |- _ => apply andb_true_iff in H; destruct H
         | H : (_ && _) = false |- _ => apply andb_false_iff in H; destruct H
         | H : (_ <=? _) = true |- _ => apply Z.leb_le in H
         | H : (_ <=? _) = false |- _ => apply Z.leb_gt in H
         | H : (_ <? _) = true |- _ => apply Z.ltb_lt in H
         | H : (_ <? _) = false |- _ => apply Z.ltb_ge in H
         | H : (_ =? _) = true |- _ => apply Z.eqb_eq in H
         | H : (_ =? _) = false |- _ => apply Z.eqb_neq in H
         end.

(** The call that made exactly one round trip, numbered [n], with request
    [req], and returned [data] and [err], leaving the handle [c]. *)
Definition one_round_trip {T} (c : Client) (req : net_http.Request) (n : nat)
    (data : T) (err : option error) : Run T :=
  Done {| out_client := c; out_data := data; out_err := err; out_sent := S n;
          out_events := [EvSend n (net_http.Timeout (http c)) req; EvClose n] |}.

(** [run] (a call, as a function of the iterations it is given) answered
    its round trip [n] by sleeping [d] and sending again: after one
    iteration it has sent, slept and not returned, and given more it
    makes round trip [n + 1] next. *)
Definition sleeps_and_resends {T} (run : nat -> Run T) (c : Client)
    (req : net_http.Request) (n : nat) (d : Z) : Prop :=
  let t := net_http.Timeout (http c) in
  run 1%nat = OutOfFuel [EvSend n t req; EvSleep d] /\
  forall fuel, exists rest,
    run_events (run (S (S fuel))) =
    EvSend n t req :: EvSleep d :: EvSend (S n) t req :: rest.

(** What the success path of an executor returns for a body: the target
    after decoding, and the wrapped decode error if there is one. *)
Definition decode_result {T} {UT : Unmarshaler T} (body : net_http.Body) (data : T)
  : T * option error :=
  match json_Decode body data with
  | (data', Some err) =>
      (data', Some (errors_New ("could not decode the data: " +:+ err)))
  | (data', None) => (data', None)
  end.

(** A call that retries until a terminal answer: [run fuel] is the call
    run for at most [fuel] iterations from round trip [n], and [retry k]
    tells whether the answer to round trip [k] sends the call round its
    loop again. The call returns exactly when some answer from [n] on is
    terminal; it never returns when every answer retries, making as many
    round trips as it is given iterations; it returns after [N] retries,
    for any [N], when the first terminal answer is the [N+1]-th; and
    what it returns does not depend on the iterations it is given beyond
    those it needs. *)
Definition retry_until_terminal {T} (run : nat -> Run T) (retry : nat -> bool)
    (n : nat) : Prop :=
  ((exists fuel o, run fuel = Done o) <->
   (exists k, (n <= k)%nat /\ retry k = false)) /\
  ((forall k, (n <= k)%nat -> retry k = true) ->
   forall fuel, exists evs, run fuel = OutOfFuel evs /\ count_sends evs = fuel) /\
  (forall N, (forall k, (n <= k < n + N)%nat -> retry k = true) ->
             retry (n + N)%nat = false ->
             forall fuel, (N < fuel)%nat ->
             exists o, run fuel = Done o /\
                       count_sends (out_events o) = S N /\
                       out_sent o = S (n + N)) /\
  (forall fuel fuel' o, run fuel = Done o -> (fuel <= fuel')%nat -> run fuel' = Done o).

(* ===================================================================== *)
(** * More observations on runs, handles and strings *)
(* ===================================================================== *)

(** The responses closed by [evs], in the order they were closed. *)
Fixpoint closed (evs : list Event) : list nat :=
  match evs with
  | [] => []
  | EvClose n :: rest => n :: closed rest
  | _ :: rest => closed rest
  end.

(** The durations slept in [evs], in order. *)
Fixpoint slept (evs : list Event) : list Z :=
  match evs with
  | [] => []
  | EvSleep d :: rest => d :: slept rest
  | _ :: rest => slept rest
  end.


(** What the loop sleeps after an answer it retries. *)
Definition sleep_of (rt : net_http.RoundTrip) : Z :=
  match rt with
  | net_http.RoundTripOk res => retryDuration res
  | net_http.RoundTripErr _ => 0
  end.

(** The events of [N] retried round trips from number [n] on: each one
    a send followed by the sleep its answer asks for. *)
Fixpoint retry_events (c : Client) (req : net_http.Request) (n N : nat)
  : list Event :=
  match N with
  | O => []
  | S N' =>
      EvSend n (net_http.Timeout (http c)) req
      :: EvSleep (sleep_of (net_http.Do (http c) n req))
      :: retry_events c req (S n) N'
  end.

(** The events of a call that returned on round trip [n + N], after [N]
    retried ones: the retries, the last send, and the deferred closes,
    the last response first. *)
Definition returned_events (c : Client) (req : net_http.Request) (n N : nat)
  : list Event :=
  retry_events c req n N ++
  EvSend (n + N) (net_http.Timeout (http c)) req
  :: map EvClose (deferred_after c req (n + N) (rev (seq n N))).

(** A run with its handle changed by [f]. *)
Definition with_client {T} (f : Client -> Client) (r : Run T) : Run T :=
  match r with
  | Done o =>
      Done {| out_client := f (out_client o); out_data := out_data o;
              out_err := out_err o; out_sent := out_sent o;
              out_events := out_events o |}
  | OutOfFuel evs => OutOfFuel evs
  end.

(** One public operation on a handle: a setter, or a call of an executor
    that returned (for any target, body and decoder). *)
Inductive handle_step {RB : RequestBuilder} {UE : Unmarshaler Error}
  : Client -> Client -> Prop :=
| step_SetSessionID c sid : handle_step c (fst (SetSessionID c sid))
| step_SetClientConfig c h : handle_step c (SetClientConfig c h)
| step_SetClientAutoRetry c : handle_step c (SetClientAutoRetry c)
| step_SetClientWithContext c : handle_step c (SetClientWithContext c)
| step_get (T : Type) (UT : Unmarshaler T) fuel c n url (data : T) o :
    get fuel c n url data = Done o -> handle_step c (out_client o)
| step_request (T : Type) (UT : Unmarshaler T) (B : Type) (MB : Marshaler B)
    fuel c n url (body : B) method (data : T) o :
    request fuel c n url body method data = Done o -> handle_step c (out_client o).

(** Any number of public operations, one after the other. *)
Inductive handle_steps {RB : RequestBuilder} {UE : Unmarshaler Error}
  : Client -> Client -> Prop :=
| steps_none c : handle_steps c c
| steps_more c1 c2 c3 :
    handle_steps c1 c2 -> handle_step c2 c3 -> handle_steps c1 c3.

(** The characters [url.QueryEscape] writes: the unreserved ones, the
    plus sign for a space, and the percent sign with upper case
    hexadecimal digits. *)
Definition query_safe (c : ascii) : bool :=
  is_lower c || is_upper c || is_digit c ||
  existsb (ascii_eqb c) (list_ascii_of_string "-_.~+%").

Fixpoint all_chars (p : ascii -> bool) (s : string) : bool :=
  match s with
  | EmptyString => true
  | String c rest => p c && all_chars p rest
  end.

(** The number of times the byte [a] occurs in [s]. *)
Fixpoint count_char (a : ascii) (s : string) : nat :=
  match s with
  | EmptyString => 0%nat
  | String c rest => ((if ascii_eqb a c then 1 else 0) + count_char a rest)%nat
  end.

(** The shape of a run of an executor's loop from round trip [n], given
    [fuel] iterations: it returned after [N] retries, or it is still
    retrying and has closed nothing. *)
Definition run_shape {T} (c : Client) (req : net_http.Request) (n fuel : nat)
    (r : Run T) : Prop :=
  let sleeps N := map (fun k => sleep_of (net_http.Do (http c) k req)) (seq n N) in
  match r with
  | Done o =>
      exists N, (N < fuel)%nat /\ out_sent o = S (n + N) /\
                out_events o = returned_events c req n N /\
                slept (out_events o) = sleeps N /\
                closed (out_events o) = deferred_after c req (n + N) (rev (seq n N))
  | OutOfFuel evs =>
      evs = retry_events c req n fuel /\
      slept evs = sleeps fuel /\ closed evs = [] /\ count_sends evs = fuel
  end.

(** A request builder that rejects a URL starting with a colon, as
    [url.Parse] does, and accepts the rest. *)
Definition strict_builder : RequestBuilder :=
  fun _ url =>
    if has_prefix ":" url
    then Some ("parse " +:+ quoted url +:+ ": missing protocol scheme")
    else None.




(* ===================================================================== *)
(** * The loop *)
(* ===================================================================== *)

Section Loop.
Context {T : Type}.
Implicit Types (iter : net_http.RoundTrip -> Step T) (c : Client).
Implicit Types (req : net_http.Request) (defs : list nat).

Lemma for_loop_continue fuel iter c req n defs d :
  iter (net_http.Do (http c) n req) = Continue d ->
  for_loop (S fuel) iter c req n defs =
  prepend [EvSend n (net_http.Timeout (http c)) req; EvSleep d]
    (for_loop fuel iter c req (S n) (deferred_after c req n defs)).
Proof. intros Hc. cbn [for_loop]. rewrite Hc. reflexivity. Qed.

Lemma for_loop_return fuel iter c req n defs data err :
  iter (net_http.Do (http c) n req) = Return data err ->
  for_loop (S fuel) iter c req n defs =
  Done {| out_client := c; out_data := data; out_err := err; out_sent := S n;
          out_events := EvSend n (net_http.Timeout (http c)) req
                        :: map EvClose (deferred_after c req n defs) |}.
Proof. intros Hc. cbn [for_loop]. rewrite Hc. reflexivity. Qed.

Lemma prepend_Done evs (r : Run T) o :
  prepend evs r = Done o ->
  exists o', r = Done o' /\ out_client o = out_client o' /\
             out_data o = out_data o' /\ out_err o = out_err o' /\
             out_sent o = out_sent o' /\ out_events o = evs ++ out_events o'.
Proof.
  destruct r as [o'|evs']; cbn; intros Heq; [|discriminate].
  injection Heq as <-. exists o'. repeat split.
Qed.

Lemma count_sends_app evs1 evs2 :
  count_sends (evs1 ++ evs2) = (count_sends evs1 + count_sends evs2)%nat.
Proof. unfold count_sends. rewrite List.filter_app, length_app. reflexivity. Qed.

Lemma count_sends_send n t req evs :
  count_sends (EvSend n t req :: evs) = S (count_sends evs).
Proof. reflexivity. Qed.

Lemma count_sends_closes defs : count_sends (map EvClose defs) = 0%nat.
Proof. induction defs as [|d defs IH]; [reflexivity|exact IH]. Qed.

Lemma is_Continue_true (s : Step T) :
  is_Continue s = true -> exists d, s = Continue d.
Proof. destruct s; [eauto|discriminate]. Qed.

Lemma is_Continue_false (s : Step T) :
  is_Continue s = false -> exists data err, s = Return data err.
Proof. destruct s; [discriminate|eauto]. Qed.

(** The handle a call returns is the one its loop ran with. *)
Lemma for_loop_client fuel iter c req : forall n defs o,
  for_loop fuel iter c req n defs = Done o -> out_client o = c.
Proof.
  induction fuel as [|fuel IH]; intros n defs o Hrun; [discriminate|].
  destruct (iter (net_http.Do (http c) n req)) as [d|data err] eqn:Hit.
  - rewrite (for_loop_continue _ _ _ _ _ _ _ Hit) in Hrun.
    apply prepend_Done in Hrun as (o' & Hrun & -> & _). eauto.
  - rewrite (for_loop_return _ _ _ _ _ _ _ _ Hit) in Hrun.
    injection Hrun as <-. reflexivity.
Qed.


(** While every answer retries, the loop does not return. *)
Lemma for_loop_spin iter c req fuel : forall n defs,
  (forall k, (n <= k < n + fuel)%nat ->
             is_Continue (iter (net_http.Do (http c) k req)) = true) ->
  exists evs, for_loop fuel iter c req n defs = OutOfFuel evs /\
              count_sends evs = fuel.
Proof.
  induction fuel as [|fuel IH]; intros n defs Hall.
  - exists []. split; reflexivity.
  - destruct (is_Continue_true _ (Hall n ltac:(lia))) as [d Hd].
    rewrite (for_loop_continue _ _ _ _ _ _ _ Hd).
    destruct (IH (S n) (deferred_after c req n defs)) as (evs & -> & Hcount).
    { intros k Hk. apply Hall. lia. }
    eexists. split; [reflexivity|].
    rewrite count_sends_app, Hcount. reflexivity.
Qed.

(** After [N] answers that retry and one that does not, the loop has
    returned, having made [N + 1] round trips. *)
Lemma for_loop_returns iter c req N : forall n defs fuel,
  (forall k, (n <= k < n + N)%nat ->
             is_Continue (iter (net_http.Do (http c) k req)) = true) ->
  is_Continue (iter (net_http.Do (http c) (n + N) req)) = false ->
  (N < fuel)%nat ->
  exists o, for_loop fuel iter c req n defs = Done o /\
            count_sends (out_events o) = S N /\
            out_sent o = S (n + N).
Proof.
  induction N as [|N IH]; intros n defs fuel Hall Hstop Hfuel;
    (destruct fuel as [|fuel]; [lia|]).
  - rewrite Nat.add_0_r in *.
    destruct (is_Continue_false _ Hstop) as (data & err & Hr).
    rewrite (for_loop_return _ _ _ _ _ _ _ _ Hr).
    eexists. split; [reflexivity|]. cbn [out_events out_sent]. split; [|reflexivity].
    rewrite count_sends_send, count_sends_closes. reflexivity.
  - destruct (is_Continue_true _ (Hall n ltac:(lia))) as [d Hd].
    rewrite (for_loop_continue _ _ _ _ _ _ _ Hd).
    destruct (IH (S n) (deferred_after c req n defs) fuel) as (o & -> & Hcount & Hsent).
    { intros k Hk. apply Hall. lia. }
    { replace (S n + N)%nat with (n + S N)%nat by lia. exact Hstop. }
    { lia. }
    eexists. split; [reflexivity|]. cbn [out_events out_sent]. split.
    + rewrite count_sends_app, Hcount. reflexivity.
    + rewrite Hsent. lia.
Qed.

(** A loop that returned saw a terminal answer after finitely many
    answers that retry. *)
Lemma for_loop_returned iter c req fuel : forall n defs o,
  for_loop fuel iter c req n defs = Done o ->
  exists N, (N < fuel)%nat /\
            (forall k, (n <= k < n + N)%nat ->
                       is_Continue (iter (net_http.Do (http c) k req)) = true) /\
            is_Continue (iter (net_http.Do (http c) (n + N) req)) = false.
Proof.
  induction fuel as [|fuel IH]; intros n defs o Hrun; [discriminate|].
  destruct (iter (net_http.Do (http c) n req)) as [d|data err] eqn:Hit.
  - rewrite (for_loop_continue _ _ _ _ _ _ _ Hit) in Hrun.
    apply prepend_Done in Hrun as (o' & Hrun & _).
    destruct (IH _ _ _ Hrun) as (N & HN & Hall & Hstop).
    exists (S N). split; [lia|]. split.
    + intros k Hk. destruct (decide (k = n)) as [->|Hne].
      * rewrite Hit. reflexivity.
      * apply Hall. lia.
    + replace (n + S N)%nat with (S n + N)%nat by lia. exact Hstop.
  - exists 0%nat. split; [lia|]. split.
    + intros k Hk. lia.
    + rewrite Nat.add_0_r, Hit. reflexivity.
Qed.

(** The first terminal answer at or after [n], if there is one at all. *)
Lemma first_terminal (f : nat -> bool) (n k : nat) :
  (n <= k)%nat -> f k = false ->
  exists N, (forall j, (n <= j < n + N)%nat -> f j = true) /\ f (n + N)%nat = false.
Proof.
  intros Hle Hk.
  remember (k - n)%nat as m eqn:Hm.
  revert n Hle Hm. induction m as [|m IH]; intros n Hle Hm.
  - exists 0%nat. split; [intros; lia|].
    replace (n + 0)%nat with k by lia. exact Hk.
  - destruct (f n) eqn:Hn.
    + destruct (IH (S n)) as (N & Hall & Hstop); [lia|lia|].
      exists (S N). split.
      * intros j Hj. destruct (decide (j = n)) as [->|Hne]; [exact Hn|apply Hall; lia].
      * replace (n + S N)%nat with (S n + N)%nat by lia. exact Hstop.
    + exists 0%nat. split; [intros; lia|]. rewrite Nat.add_0_r. exact Hn.
Qed.

(** More iterations do not change what a loop returned. *)
Lemma for_loop_fuel_mono iter c req fuel : forall fuel' n defs o,
  for_loop fuel iter c req n defs = Done o -> (fuel <= fuel')%nat ->
  for_loop fuel' iter c req n defs = Done o.
Proof.
  induction fuel as [|fuel IH]; intros fuel' n defs o Hrun Hle; [discriminate|].
  destruct fuel' as [|fuel']; [lia|].
  destruct (iter (net_http.Do (http c) n req)) as [d|data err] eqn:Hit.
  - rewrite (for_loop_continue fuel _ _ _ _ _ _ Hit) in Hrun.
    rewrite (for_loop_continue fuel' _ _ _ _ _ _ Hit).
    destruct (for_loop fuel iter c req (S n) (deferred_after c req n defs))
      as [o'|evs] eqn:Hinner; [|discriminate].
    rewrite (IH fuel' _ _ _ Hinner) by lia. exact Hrun.
  - rewrite (for_loop_return fuel _ _ _ _ _ _ _ Hit) in Hrun.
    rewrite (for_loop_return fuel' _ _ _ _ _ _ _ Hit). exact Hrun.
Qed.

(** The loop retries until a terminal answer. *)
Lemma for_loop_retry_until_terminal iter c req n defs :
  retry_until_terminal
    (fun fuel => for_loop fuel iter c req n defs)
    (fun k => is_Continue (iter (net_http.Do (http c) k req))) n.
Proof.
  split; [split|split; [|split]];
    [| | | |intros fuel fuel' o Ho Hle; eapply for_loop_fuel_mono; eassumption].
  - intros (fuel & o & Hrun).
    destruct (for_loop_returned _ _ _ _ _ _ _ Hrun) as (N & _ & _ & Hstop).
    exists (n + N)%nat. split; [lia|exact Hstop].
  - intros (k & Hle & Hk).
    destruct (first_terminal
                (fun k => is_Continue (iter (net_http.Do (http c) k req)))
                n k Hle Hk) as (N & Hall & Hstop).
    destruct (for_loop_returns iter c req N n defs (S N) Hall Hstop) as (o & Hrun & _);
      [lia|eauto].
  - intros Hall fuel. apply for_loop_spin. intros k Hk. apply Hall. lia.
  - intros N Hall Hstop fuel Hfuel. apply for_loop_returns; assumption.
Qed.

End Loop.

(* ===================================================================== *)
(** * The executors *)
(* ===================================================================== *)

Section ExecutorFacts.
Context {RB : RequestBuilder} {UE : Unmarshaler Error}.
Context {T : Type} {UT : Unmarshaler T}.
Implicit Types (c : Client) (data : T) (res : net_http.Response).

Lemma default_timeout_autoRetry c : autoRetry (default_timeout c) = autoRetry c.
Proof. unfold default_timeout. destruct (_ =? _); reflexivity. Qed.


Lemma get_empty_url fuel c n data :
  get fuel c n EmptyString data = early c data n (errors_New "url field is empty").
Proof. reflexivity. Qed.

Lemma request_empty_url {B} {MB : Marshaler B} fuel c n (body : B) method data :
  request fuel c n EmptyString body method data =
  early c data n (errors_New "url field is empty").
Proof. reflexivity. Qed.

(** Past its two guards, [get] is its loop. *)
Lemma get_unfold fuel c n url data :
  url <> EmptyString ->
  NewRequest_error "GET" url = None ->
  get fuel c n url data =
  for_loop fuel (get_iter (default_timeout c) data) (default_timeout c)
    (get_req url) n [].
Proof.
  intros Hurl Hreq. unfold get.
  destruct url as [|a url]; [contradiction|].
  unfold NewRequestWithContext, NewRequest, net_http.MethodGet.
  rewrite Hreq. destruct (withContext (default_timeout c)); reflexivity.
Qed.

Lemma get_build_error fuel c n url data e :
  url <> EmptyString ->
  NewRequest_error "GET" url = Some e ->
  get fuel c n url data =
  early (default_timeout c) data n (errors_New ("could not fetch the url: " +:+ e)).
Proof.
  intros Hurl Hreq. unfold get.
  destruct url as [|a url]; [contradiction|].
  unfold NewRequestWithContext, NewRequest, net_http.MethodGet.
  rewrite Hreq. destruct (withContext (default_timeout c)); reflexivity.
Qed.

(** Past its two guards, [request] is its loop. *)
Lemma request_unfold {B} {MB : Marshaler B} fuel c n url (body : B) method data :
  url <> EmptyString ->
  NewRequest_error method url = None ->
  request fuel c n url body method data =
  for_loop fuel (request_iter (default_timeout c) data) (default_timeout c)
    (request_req method url (json_Encode body)) n [].
Proof.
  intros Hurl Hreq. unfold request.
  destruct url as [|a url]; [contradiction|].
  unfold NewRequestWithContext, NewRequest.
  rewrite Hreq. destruct (withContext (default_timeout c)); reflexivity.
Qed.

Lemma request_build_error {B} {MB : Marshaler B} fuel c n url (body : B) method data e :
  url <> EmptyString ->
  NewRequest_error method url = Some e ->
  request fuel c n url body method data =
  early (default_timeout c) data n (errors_New ("could not fetch the url: " +:+ e)).
Proof.
  intros Hurl Hreq. unfold request.
  destruct url as [|a url]; [contradiction|].
  unfold NewRequestWithContext, NewRequest.
  rewrite Hreq. destruct (withContext (default_timeout c)); reflexivity.
Qed.

Lemma get_iter_retries c data rt :
  is_Continue (get_iter c data rt) = get_retries c rt.
Proof.
  destruct rt as [e|res]; [reflexivity|]. cbn.
  unfold net_http.StatusTooManyRequests, net_http.StatusNoContent, net_http.StatusOK.
  destruct (net_http.StatusCode res =? 429) eqn:H429; cbn.
  - destruct (autoRetry c); cbn; [reflexivity|].
    apply Z.eqb_eq in H429. rewrite H429. reflexivity.
  - destruct (net_http.StatusCode res =? 204); [reflexivity|].
    destruct (net_http.StatusCode res =? 200); cbn; [|reflexivity].
    destruct (json_Decode _ _) as [d [e|]]; reflexivity.
Qed.

Lemma request_iter_retries c data rt :
  is_Continue (request_iter c data rt) = request_retries c rt.
Proof.
  destruct rt as [e|res]; [reflexivity|]. cbn.
  unfold shouldRetry, net_http.StatusTooManyRequests, net_http.StatusAccepted.
  destruct (autoRetry c && _); [reflexivity|].
  destruct (_ || _); [reflexivity|].
  destruct (json_Decode _ _) as [d [e|]]; reflexivity.
Qed.

(** [get] on a 429 with auto-retry on. *)
Lemma get_iter_429_retry c data res :
  net_http.StatusCode res = 429 -> autoRetry c = true ->
  get_iter c data (net_http.RoundTripOk res) = Continue (retryDuration res).
Proof. intros Hs Ha. cbn. rewrite Hs, Ha. reflexivity. Qed.

(** [get] on a status that is neither 204 nor 200, when it does not
    retry. *)
Lemma get_iter_error c data res :
  net_http.StatusCode res <> 204 -> net_http.StatusCode res <> 200 ->
  (net_http.StatusCode res = 429 -> autoRetry c = false) ->
  get_iter c data (net_http.RoundTripOk res) = Return data (Some (decodeError c res)).
Proof.
  intros H204 H200 Hretry. cbn.
  unfold net_http.StatusTooManyRequests, net_http.StatusNoContent, net_http.StatusOK.
  destruct (net_http.StatusCode res =? 429) eqn:H429.
  - apply Z.eqb_eq in H429. rewrite (Hretry H429). cbn.
    rewrite H429. reflexivity.
  - cbn. apply Z.eqb_neq in H204, H200. rewrite H204, H200. reflexivity.
Qed.

Lemma get_iter_204 c data res :
  net_http.StatusCode res = 204 ->
  get_iter c data (net_http.RoundTripOk res) = Return data None.
Proof. intros Hs. cbn. rewrite Hs. reflexivity. Qed.

Lemma get_iter_200 c data res :
  net_http.StatusCode res = 200 ->
  get_iter c data (net_http.RoundTripOk res) =
  Return (fst (decode_result (net_http.ResponseBody res) data))
         (snd (decode_result (net_http.ResponseBody res) data)).
Proof.
  intros Hs. cbn. rewrite Hs. cbn. unfold decode_result.
  destruct (json_Decode _ _) as [d [e|]]; reflexivity.
Qed.

(** [request] on a 202 or a 429 with auto-retry on. *)
Lemma request_iter_retry c data res :
  net_http.StatusCode res = 202 \/ net_http.StatusCode res = 429 ->
  autoRetry c = true ->
  request_iter c data (net_http.RoundTripOk res) = Continue (retryDuration res).
Proof. intros [Hs|Hs] Ha; cbn; rewrite Hs, Ha; reflexivity. Qed.

(** [request] on a status outside 200..299 or equal to 204, when it does
    not retry. *)
Lemma request_iter_error c data res :
  300 <= net_http.StatusCode res \/ net_http.StatusCode res < 200 \/
  net_http.StatusCode res = 204 ->
  (net_http.StatusCode res = 429 -> autoRetry c = false) ->
  request_iter c data (net_http.RoundTripOk res) =
  Return data (Some (decodeError c res)).
Proof.
  intros Hrange Hretry. cbn.
  unfold shouldRetry, net_http.StatusTooManyRequests, net_http.StatusAccepted,
    net_http.StatusMultipleChoices, net_http.StatusOK, net_http.StatusNoContent.
  assert (autoRetry c && ((net_http.StatusCode res =? 202) ||
                           (net_http.StatusCode res =? 429)) = false) as ->.
  { destruct (autoRetry c) eqn:Ha; [|reflexivity]. cbn.
    apply orb_false_iff. split; apply Z.eqb_neq; intros Heq.
    - lia.
    - specialize (Hretry Heq). congruence. }
  assert ((300 <=? net_http.StatusCode res) || (net_http.StatusCode res <? 200) ||
          (net_http.StatusCode res =? 204) = true) as ->; [|reflexivity].
  destruct Hrange as [Hr|[Hr|Hr]].
  - apply Z.leb_le in Hr. rewrite Hr. reflexivity.
  - apply Z.ltb_lt in Hr. rewrite Hr. apply orb_true_iff. left. apply orb_true_r.
  - apply Z.eqb_eq in Hr. rewrite Hr. apply orb_true_r.
Qed.

(** [request] on a status in 200..299 other than 204, when it does not
    retry: the body is decoded into the target. *)
Lemma request_iter_success c data res :
  200 <= net_http.StatusCode res < 300 -> net_http.StatusCode res <> 204 ->
  (net_http.StatusCode res = 202 -> autoRetry c = false) ->
  request_iter c data (net_http.RoundTripOk res) =
  Return (fst (decode_result (net_http.ResponseBody res) data))
         (snd (decode_result (net_http.ResponseBody res) data)).
Proof.
  intros Hrange H204 Hretry. cbn.
  unfold shouldRetry, net_http.StatusTooManyRequests, net_http.StatusAccepted,
    net_http.StatusMultipleChoices, net_http.StatusOK, net_http.StatusNoContent.
  assert (autoRetry c && ((net_http.StatusCode res =? 202) ||
                           (net_http.StatusCode res =? 429)) = false) as ->.
  { destruct (autoRetry c) eqn:Ha; [|reflexivity]. cbn.
    apply orb_false_iff. split; apply Z.eqb_neq; intros Heq.
    - specialize (Hretry Heq). congruence.
    - lia. }
  assert ((300 <=? net_http.StatusCode res) || (net_http.StatusCode res <? 200) ||
          (net_http.StatusCode res =? 204) = false) as ->.
  { repeat (apply orb_false_iff; split);
      [apply Z.leb_gt|apply Z.ltb_ge|apply Z.eqb_neq]; lia. }
  unfold decode_result. destruct (json_Decode _ _) as [d [e|]]; reflexivity.
Qed.

(** One round trip whose answer makes the loop return. *)
Lemma for_loop_one fuel (iter : net_http.RoundTrip -> Step T) c req n res data err :
  net_http.Do (http c) n req = net_http.RoundTripOk res ->
  iter (net_http.RoundTripOk res) = Return data err ->
  for_loop (S fuel) iter c req n [] = one_round_trip c req n data err.
Proof.
  intros Hdo Hit. rewrite (for_loop_return fuel iter c req n [] data err).
  - unfold deferred_after. rewrite Hdo. reflexivity.
  - rewrite Hdo. exact Hit.
Qed.

(** One round trip whose answer makes the loop sleep and go round. *)
Lemma for_loop_resends (iter : net_http.RoundTrip -> Step T) c req n defs d :
  iter (net_http.Do (http c) n req) = Continue d ->
  sleeps_and_resends (fun fuel => for_loop fuel iter c req n defs) c req n d.
Proof.
  intros Hit. split.
  - rewrite (for_loop_continue _ _ _ _ _ _ _ Hit). reflexivity.
  - intros fuel. rewrite (for_loop_continue _ _ _ _ _ _ _ Hit).
    set (defs' := deferred_after c req n defs).
    destruct (iter (net_http.Do (http c) (S n) req)) as [d'|data err] eqn:Hit'.
    + rewrite (for_loop_continue _ _ _ _ _ _ _ Hit').
      destruct (for_loop fuel iter c req (S (S n)) _); cbn; eauto.
    + rewrite (for_loop_return _ _ _ _ _ _ _ _ Hit'). cbn. eauto.
Qed.

End ExecutorFacts.

(* ===================================================================== *)
(** * Retry policy: [shouldRetry] *)
(* ===================================================================== *)

(** C8. [shouldRetry] is true exactly for the status codes 202 and 429,
    and false for every other status code, 200 and 404 among them. *)
Theorem shouldRetry_exactly_202_429 :
  (forall status : Z, shouldRetry status = true <-> status = 202 \/ status = 429) /\
  (forall status : Z, shouldRetry status = false <-> status <> 202 /\ status <> 429) /\
  shouldRetry 202 = true /\ shouldRetry 429 = true /\
  shouldRetry 200 = false /\ shouldRetry 404 = false.
Proof.
  assert (forall status : Z, shouldRetry status = true <-> status = 202 \/ status = 429) as Htrue.
  { intros status. unfold shouldRetry, net_http.StatusAccepted, net_http.StatusTooManyRequests.
    rewrite orb_true_iff, !Z.eqb_eq. reflexivity. }
  split; [exact Htrue|]. split; [|repeat split].
  intros status. rewrite <- not_true_iff_false, Htrue. lia.
Qed.

(* ===================================================================== *)
(** * Retry eligibility of the two executors *)
(* ===================================================================== *)

Section RetryEligibility.
Context {RB : RequestBuilder} {UE : Unmarshaler Error}.
Context {T : Type} {UT : Unmarshaler T} {B : Type} {MB : Marshaler B}.

(** C1, as amended. For a call that reaches its loop (a URL that is not
    empty and that [http.NewRequest] accepts) and a response [res] to its
    round trip [n]:
    - with auto-retry on, [get] answers a 429, and [request] answers a
      202 or a 429, by sleeping [retryDuration res] and sending again;
    - with auto-retry off, [get] answers a 202 or a 429, and [request] a
      429, by returning the error of [decodeError] at once, after that
      one round trip; [request] takes a 202 for a success and decodes
      its body into the target.
    What [get] does with a 202 when auto-retry is on is left out. *)
Theorem retry_eligibility (c : Client) (n : nat) (url : string) (body : B)
    (method : string) (data : T) (res : net_http.Response) :
  url <> EmptyString ->
  NewRequest_error "GET" url = None ->
  NewRequest_error method url = None ->
  let c' := default_timeout c in
  let greq := get_req url in
  let rreq := request_req method url (json_Encode body) in
  let get_run := fun fuel => get fuel c n url data in
  let request_run := fun fuel => request fuel c n url body method data in
  (autoRetry c = true ->
   (net_http.StatusCode res = 429 ->
    net_http.Do (http c') n greq = net_http.RoundTripOk res ->
    sleeps_and_resends get_run c' greq n (retryDuration res)) /\
   (net_http.StatusCode res = 202 \/ net_http.StatusCode res = 429 ->
    net_http.Do (http c') n rreq = net_http.RoundTripOk res ->
    sleeps_and_resends request_run c' rreq n (retryDuration res))) /\
  (autoRetry c = false ->
   (net_http.StatusCode res = 202 \/ net_http.StatusCode res = 429 ->
    net_http.Do (http c') n greq = net_http.RoundTripOk res ->
    forall fuel,
      get_run (S fuel) = one_round_trip c' greq n data (Some (decodeError c' res))) /\
   (net_http.StatusCode res = 429 ->
    net_http.Do (http c') n rreq = net_http.RoundTripOk res ->
    forall fuel,
      request_run (S fuel) = one_round_trip c' rreq n data (Some (decodeError c' res))) /\
   (net_http.StatusCode res = 202 ->
    net_http.Do (http c') n rreq = net_http.RoundTripOk res ->
    forall fuel,
      request_run (S fuel) =
      one_round_trip c' rreq n
        (fst (decode_result (net_http.ResponseBody res) data))
        (snd (decode_result (net_http.ResponseBody res) data)))).
Proof.
  intros Hurl Hget Hreq c' greq rreq get_run request_run.
  assert (forall fuel, get_run fuel = for_loop fuel (get_iter c' data) c' greq n [])
    as Hg by (intros; apply get_unfold; assumption).
  assert (forall fuel, request_run fuel = for_loop fuel (request_iter c' data) c' rreq n [])
    as Hr by (intros; apply request_unfold; assumption).
  split; intros Hauto.
  - assert (autoRetry c' = true) as Hauto'
      by (unfold c'; rewrite default_timeout_autoRetry; exact Hauto).
    split; intros Hs Hdo.
    + destruct (for_loop_resends (get_iter c' data) c' greq n [] (retryDuration res))
        as [H1 H2].
      { rewrite Hdo. apply get_iter_429_retry; assumption. }
      split; [rewrite Hg; exact H1|].
      intros fuel. rewrite Hg. apply H2.
    + destruct (for_loop_resends (request_iter c' data) c' rreq n [] (retryDuration res))
        as [H1 H2].
      { rewrite Hdo. apply request_iter_retry; assumption. }
      split; [rewrite Hr; exact H1|].
      intros fuel. rewrite Hr. apply H2.
  - assert (autoRetry c' = false) as Hauto'
      by (unfold c'; rewrite default_timeout_autoRetry; exact Hauto).
    split; [|split]; intros Hs Hdo fuel.
    + rewrite Hg. apply (for_loop_one _ _ _ _ _ res); [exact Hdo|].
      apply get_iter_error; [lia|lia|auto].
    + rewrite Hr. apply (for_loop_one _ _ _ _ _ res); [exact Hdo|].
      apply request_iter_error; [lia|auto].
    + rewrite Hr. apply (for_loop_one _ _ _ _ _ res); [exact Hdo|].
      apply request_iter_success; [lia|lia|auto].
Qed.

End RetryEligibility.

(** [retry_eligibility] at work. With auto-retry on, [get] answered by
    [busy_3s] sleeps three seconds and sends again, and [request]
    answered by [accepted_queued] sleeps one second and sends again; with
    auto-retry off, [get] answered by [busy_3s] returns the empty-body
    error after one round trip, and [request] answered by
    [accepted_queued] returns its decoded body. *)
Lemma retry_eligibility_witness :
  (sleeps_and_resends
     (fun fuel =>
        get (RB := accept_all) (UE := Error_Decode) (UT := Response_Decode)
          fuel (mock_client true (scripted (answers [busy_3s]))) 0 movie_url Response_zero)
     (default_timeout (mock_client true (scripted (answers [busy_3s]))))
     (get_req movie_url) 0 (retryDuration busy_3s)
   /\ retryDuration busy_3s = 3 * time_Second) /\
  (sleeps_and_resends
     (fun fuel =>
        request (RB := accept_all) (UE := Error_Decode) (UT := Response_Decode)
          (MB := nil_Marshal)
          fuel (mock_client true (scripted (answers [accepted_queued]))) 0 movie_url
          tt "POST" Response_zero)
     (default_timeout (mock_client true (scripted (answers [accepted_queued]))))
     (request_req "POST" movie_url (json_Encode (MB := nil_Marshal) tt)) 0
     (retryDuration accepted_queued)
   /\ retryDuration accepted_queued = 1 * time_Second) /\
  get (RB := accept_all) (UE := Error_Decode) (UT := Response_Decode)
    1 (mock_client false (scripted (answers [busy_3s]))) 0 movie_url Response_zero =
  one_round_trip (default_timeout (mock_client false (scripted (answers [busy_3s]))))
    (get_req movie_url) 0 Response_zero
    (Some (errors_New "[429]: empty body Too Many Requests")) /\
  request (RB := accept_all) (UE := Error_Decode) (UT := Response_Decode)
    (MB := nil_Marshal)
    1 (mock_client false (scripted (answers [accepted_queued]))) 0 movie_url
    tt "POST" Response_zero =
  one_round_trip (default_timeout (mock_client false (scripted (answers [accepted_queued]))))
    (request_req "POST" movie_url (json_Encode (MB := nil_Marshal) tt)) 0
    {| Response_StatusCode := 12; Response_StatusMessage := "queued" |} None.
Proof.
  split; [split; [|vm_compute; reflexivity]|split; [split; [|vm_compute; reflexivity]|split]].
  - refine (proj1 (proj1 (retry_eligibility (RB := accept_all) (UE := Error_Decode)
              (UT := Response_Decode) (MB := nil_Marshal)
              (mock_client true (scripted (answers [busy_3s]))) 0 movie_url tt "POST"
              Response_zero busy_3s _ _ _) _) _ _);
      (discriminate || reflexivity).
  - refine (proj2 (proj1 (retry_eligibility (RB := accept_all) (UE := Error_Decode)
              (UT := Response_Decode) (MB := nil_Marshal)
              (mock_client true (scripted (answers [accepted_queued]))) 0 movie_url
              tt "POST" Response_zero accepted_queued _ _ _) _) _ _);
      try (discriminate || reflexivity).
    left. reflexivity.
  - refine (proj1 (proj2 (retry_eligibility (RB := accept_all) (UE := Error_Decode)
              (UT := Response_Decode) (MB := nil_Marshal)
              (mock_client false (scripted (answers [busy_3s]))) 0 movie_url tt "POST"
              Response_zero busy_3s _ _ _) _) _ _ 0%nat);
      try (discriminate || reflexivity).
    right. reflexivity.
  - refine (proj2 (proj2 (proj2 (retry_eligibility (RB := accept_all) (UE := Error_Decode)
              (UT := Response_Decode) (MB := nil_Marshal)
              (mock_client false (scripted (answers [accepted_queued]))) 0 movie_url
              tt "POST" Response_zero accepted_queued _ _ _) _)) _ _ 0%nat);
      (discriminate || reflexivity).
Defined.

(** C1 as stated fails twice on a 202. With auto-retry on, [get] returns
    after one round trip and no sleep, although a second answer was
    ready; with auto-retry off, [request] returns no error and has
    decoded the body. *)
Lemma retry_eligibility_counterexample :
  (exists o,
     get (RB := accept_all) (UE := Error_Decode) (UT := Response_Decode) 5
       (mock_client true
          (scripted (answers [accepted_empty; mock_response 200 [] (response_json 1 "ok")])))
       0 movie_url Response_zero = Done o /\
     out_err o = Some (errors_New "[202]: empty body Accepted") /\
     count_sends (out_events o) = 1%nat /\
     List.filter is_sleep (out_events o) = []) /\
  (exists o,
     request (RB := accept_all) (UE := Error_Decode) (UT := Response_Decode)
       (MB := nil_Marshal) 5
       (mock_client false (scripted (answers [accepted_queued])))
       0 movie_url tt "POST" Response_zero = Done o /\
     out_err o = None /\
     out_data o = {| Response_StatusCode := 12; Response_StatusMessage := "queued" |} /\
     count_sends (out_events o) = 1%nat).
Proof.
  split; eexists; (split; [vm_compute; reflexivity|]); repeat split.
Qed.

(* ===================================================================== *)
(** * The error decoder *)
(* ===================================================================== *)

Section DecodeErrorFacts.
Context {UE : Unmarshaler Error}.
Implicit Types (c : Client) (r : net_http.Response).

Lemma len_0 (s : string) : (len s =? 0) = true <-> s = EmptyString.
Proof.
  unfold len. destruct s as [|a s]; cbn [String.length].
  - split; reflexivity.
  - split; [|discriminate]. intros Hl. apply Z.eqb_eq in Hl. lia.
Qed.

Lemma decodeError_read_error c r resBody err :
  ReadAll (net_http.ResponseBody r) = (resBody, Some err) ->
  decodeError c r = errors_New ("could not read body response: " +:+ err).
Proof. intros Hread. unfold decodeError. rewrite Hread. reflexivity. Qed.

Lemma decodeError_empty c r :
  ReadAll (net_http.ResponseBody r) = (EmptyString, None) ->
  decodeError c r =
  errors_New ("[" +:+ fmt.itoa (net_http.StatusCode r) +:+ "]: empty body " +:+
              net_http.StatusText (net_http.StatusCode r)).
Proof. intros Hread. unfold decodeError. rewrite Hread. reflexivity. Qed.

Lemma decodeError_undecodable c r resBody e msg :
  ReadAll (net_http.ResponseBody r) = (resBody, None) ->
  resBody <> EmptyString ->
  json_Decode (NewBuffer resBody) Error_zero = (e, Some msg) ->
  decodeError c r =
  errors_New ("couldn't decode error: (" +:+ fmt.itoa (len resBody) +:+
              ") [" +:+ resBody +:+ "]").
Proof.
  intros Hread Hne Hdec. unfold decodeError. rewrite Hread.
  destruct (len resBody =? 0) eqn:Hl; [apply len_0 in Hl; contradiction|].
  cbv zeta. rewrite Hdec. reflexivity.
Qed.

Lemma decodeError_envelope c r resBody e :
  ReadAll (net_http.ResponseBody r) = (resBody, None) ->
  resBody <> EmptyString ->
  json_Decode (NewBuffer resBody) Error_zero = (e, None) ->
  decodeError c r = error_Error e.
Proof.
  intros Hread Hne Hdec. unfold decodeError. rewrite Hread.
  destruct (len resBody =? 0) eqn:Hl; [apply len_0 in Hl; contradiction|].
  cbv zeta. rewrite Hdec. reflexivity.
Qed.

(** C6. [decodeError] on a response whose body was read in full:
    - an empty body gives a generic error with the status code and
      [http.StatusText] of it;
    - a body that is not empty and does not decode as an [Error] gives an
      error with the number of bytes and the bytes themselves;
    - a body that decodes as an [Error] gives that [Error], whose text is
      "code: <code> | success: <bool> | message: <text>".
    For the body [{"status_message":"fail","success":false,
    "status_code":500}] of a 500 response, read by the JSON reader of
    this file, the [Error] has message "fail", success false and code
    500, and its text is "code: 500 | success: false | message: fail". *)
Theorem decodeError_cases c r (resBody : string) :
  ReadAll (net_http.ResponseBody r) = (resBody, None) ->
  (resBody = EmptyString ->
   decodeError c r =
   errors_New ("[" +:+ fmt.itoa (net_http.StatusCode r) +:+ "]: empty body " +:+
               net_http.StatusText (net_http.StatusCode r))) /\
  (resBody <> EmptyString ->
   forall e msg,
     json_Decode (NewBuffer resBody) Error_zero = (e, Some msg) ->
     decodeError c r =
     errors_New ("couldn't decode error: (" +:+ fmt.itoa (len resBody) +:+
                 ") [" +:+ resBody +:+ "]")) /\
  (resBody <> EmptyString ->
   forall e,
     json_Decode (NewBuffer resBody) Error_zero = (e, None) ->
     decodeError c r = error_Error e /\
     error_text (decodeError c r) =
     "code: " +:+ fmt.itoa (StatusCode e) +:+
     " | success: " +:+ (if Success e then "true" else "false") +:+
     " | message: " +:+ StatusMessage e) /\
  (let r500 := mock_response 500 [] (envelope "fail" false 500) in
   decodeError (UE := Error_Decode) c r500 =
   error_Error {| StatusMessage := "fail"; Success := false; StatusCode := 500 |} /\
   error_text (decodeError (UE := Error_Decode) c r500) =
   "code: 500 | success: false | message: fail").
Proof.
  intros Hread. split; [|split; [|split]].
  - intros ->. apply decodeError_empty. exact Hread.
  - intros Hne e msg Hdec. eapply decodeError_undecodable; eassumption.
  - intros Hne e Hdec.
    rewrite (decodeError_envelope c r resBody e Hread Hne Hdec).
    split; [reflexivity|]. cbn [error_text]. unfold Error_Error, fmt.btoa.
    reflexivity.
  - cbv zeta. split; vm_compute; reflexivity.
Qed.

End DecodeErrorFacts.

(** [decodeError_cases] at work on three 404 responses: no body, a body
    that is no JSON, and an error envelope. *)
Lemma decodeError_cases_witness :
  decodeError (UE := Error_Decode) (mock_client false (scripted []))
    (mock_response 404 [] EmptyString) =
  errors_New "[404]: empty body Not Found" /\
  decodeError (UE := Error_Decode) (mock_client false (scripted []))
    (mock_response 404 [] "<html>") =
  errors_New "couldn't decode error: (6) [<html>]" /\
  error_text
    (decodeError (UE := Error_Decode) (mock_client false (scripted []))
       (mock_response 404 []
          (envelope "The resource you requested could not be found." false 34))) =
  "code: 34 | success: false | message: The resource you requested could not be found.".
Proof.
  split; [|split].
  - exact (proj1 (decodeError_cases (UE := Error_Decode) _
                    (mock_response 404 [] EmptyString) EmptyString eq_refl) eq_refl).
  - refine (proj1 (proj2 (decodeError_cases (UE := Error_Decode) _
                    (mock_response 404 [] "<html>") "<html>" eq_refl)) _
                    Error_zero "invalid character in JSON input" _).
    + discriminate.
    + vm_compute. reflexivity.
  - refine (proj2 (proj1 (proj2 (proj2 (decodeError_cases (UE := Error_Decode) _
                    (mock_response 404 []
                       (envelope "The resource you requested could not be found." false 34))
                    _ eq_refl))) _
                    {| StatusMessage := "The resource you requested could not be found.";
                       Success := false; StatusCode := 34 |} _)).
    + vm_compute. discriminate.
    + vm_compute. reflexivity.
Defined.

(* ===================================================================== *)
(** * [get]: a 429 followed by a 200; a 429 alone *)
(* ===================================================================== *)

Section GetRetry.
Context {RB : RequestBuilder} {UE : Unmarshaler Error}.
Context {T : Type} {UT : Unmarshaler T}.

(** C2, as amended. For a [get] that reaches its loop:
    - with auto-retry on, a 429 followed by a 200 whose body decodes
      makes the call send exactly twice, sleeping [retryDuration] of the
      429 in between, and return no error with the second body decoded
      into the target;
    - with auto-retry off, a 429 makes the call send exactly once and
      return the error [decodeError] builds from that response: when the
      body decodes as an [Error] it is that [Error], with the code the
      body states (not the status of the response); when the body is
      empty it is a generic error whose text names the status, 429. *)
Theorem get_429_then_200 (c : Client) (n : nat) (url : string) (data : T)
    (res1 res2 : net_http.Response) :
  url <> EmptyString ->
  NewRequest_error "GET" url = None ->
  let c' := default_timeout c in
  let req := get_req url in
  let t := net_http.Timeout (http c') in
  net_http.Do (http c') n req = net_http.RoundTripOk res1 ->
  net_http.StatusCode res1 = 429 ->
  (autoRetry c = true ->
   net_http.Do (http c') (S n) req = net_http.RoundTripOk res2 ->
   net_http.StatusCode res2 = 200 ->
   forall data',
     json_Decode (net_http.ResponseBody res2) data = (data', None) ->
     forall fuel,
       get (S (S fuel)) c n url data =
       Done {| out_client := c'; out_data := data'; out_err := None;
               out_sent := S (S n);
               out_events := [EvSend n t req; EvSleep (retryDuration res1);
                              EvSend (S n) t req; EvClose (S n); EvClose n] |} /\
       count_sends (run_events (get (S (S fuel)) c n url data)) = 2%nat) /\
  (autoRetry c = false ->
   (forall fuel,
      get (S fuel) c n url data =
      one_round_trip c' req n data (Some (decodeError c' res1)) /\
      count_sends (run_events (get (S fuel) c n url data)) = 1%nat) /\
   (forall resBody e,
      ReadAll (net_http.ResponseBody res1) = (resBody, None) ->
      resBody <> EmptyString ->
      json_Decode (NewBuffer resBody) Error_zero = (e, None) ->
      decodeError c' res1 = error_Error e) /\
   (ReadAll (net_http.ResponseBody res1) = (EmptyString, None) ->
    decodeError c' res1 = errors_New "[429]: empty body Too Many Requests")).
Proof.
  intros Hurl Hreq c' req t Hdo1 Hs1.
  assert (forall fuel, get fuel c n url data = for_loop fuel (get_iter c' data) c' req n [])
    as Hg by (intros; apply get_unfold; assumption).
  split; intros Hauto.
  - intros Hdo2 Hs2 data' Hdec fuel.
    assert (autoRetry c' = true) as Hauto'
      by (unfold c'; rewrite default_timeout_autoRetry; exact Hauto).
    assert (get (S (S fuel)) c n url data =
            Done {| out_client := c'; out_data := data'; out_err := None;
                    out_sent := S (S n);
                    out_events := [EvSend n t req; EvSleep (retryDuration res1);
                                   EvSend (S n) t req; EvClose (S n); EvClose n] |}) as Hrun.
    { rewrite Hg.
      rewrite (for_loop_continue (S fuel) (get_iter c' data) c' req n [] (retryDuration res1)).
      2:{ rewrite Hdo1. apply get_iter_429_retry; assumption. }
      rewrite (for_loop_return fuel (get_iter c' data) c' req (S n) _ data' None).
      2:{ rewrite Hdo2, (get_iter_200 _ _ _ Hs2). unfold decode_result.
          rewrite Hdec. reflexivity. }
      unfold deferred_after. rewrite Hdo1, Hdo2. reflexivity. }
    split; [exact Hrun|]. rewrite Hrun. reflexivity.
  - assert (autoRetry c' = false) as Hauto'
      by (unfold c'; rewrite default_timeout_autoRetry; exact Hauto).
    split; [|split].
    + intros fuel.
      assert (get (S fuel) c n url data =
              one_round_trip c' req n data (Some (decodeError c' res1))) as Hrun.
      { rewrite Hg. apply (for_loop_one _ _ _ _ _ res1); [exact Hdo1|].
        apply get_iter_error; [lia|lia|auto]. }
      split; [exact Hrun|]. rewrite Hrun. reflexivity.
    + intros resBody e Hread Hne Hdec. eapply decodeError_envelope; eassumption.
    + intros Hread. rewrite (decodeError_empty _ _ Hread), Hs1. reflexivity.
Qed.

End GetRetry.

(** [get_429_then_200] at work. With auto-retry on, [over_limit] then
    [fight_club] is two round trips and a decoded target; with
    auto-retry off, a 429 without a body is one round trip and the
    empty-body error. *)
Lemma get_429_then_200_witness :
  (exists o,
     get (RB := accept_all) (UE := Error_Decode) (UT := Response_Decode) 2
       (mock_client true (scripted (answers [over_limit; fight_club])))
       0 movie_url Response_zero = Done o /\
     out_err o = None /\
     out_data o = {| Response_StatusCode := 1; Response_StatusMessage := "Success." |} /\
     out_sent o = 2%nat) /\
  get (RB := accept_all) (UE := Error_Decode) (UT := Response_Decode) 1
    (mock_client false (scripted (answers [busy_3s]))) 0 movie_url Response_zero =
  one_round_trip (default_timeout (mock_client false (scripted (answers [busy_3s]))))
    (get_req movie_url) 0 Response_zero
    (Some (errors_New "[429]: empty body Too Many Requests")).
Proof.
  split.
  - eexists. split.
    + refine (proj1 (proj1 (get_429_then_200 (RB := accept_all) (UE := Error_Decode)
                (UT := Response_Decode)
                (mock_client true (scripted (answers [over_limit; fight_club])))
                0 movie_url Response_zero over_limit fight_club _ _ _ _) _ _ _
                {| Response_StatusCode := 1; Response_StatusMessage := "Success." |}
                _ 0%nat));
        (discriminate || reflexivity).
    + repeat split.
  - refine (proj1 (proj1 (proj2 (get_429_then_200 (RB := accept_all) (UE := Error_Decode)
              (UT := Response_Decode)
              (mock_client false (scripted (answers [busy_3s])))
              0 movie_url Response_zero busy_3s busy_3s _ _ _ _) _) 0%nat));
      (discriminate || reflexivity).
Defined.

(** C2 as stated fails on its last clause: with auto-retry off, the
    error [get] returns for [over_limit], a 429, is an [Error] with
    status code 25, the code its body states. *)
Lemma get_429_then_200_counterexample :
  exists o,
    get (RB := accept_all) (UE := Error_Decode) (UT := Response_Decode) 3
      (mock_client false (scripted (answers [over_limit])))
      0 movie_url Response_zero = Done o /\
    count_sends (out_events o) = 1%nat /\
    out_err o =
    Some (error_Error
            {| StatusMessage := "Your request count (41) is over the allowed limit of 40.";
               Success := false; StatusCode := 25 |}) /\
    option_map error_text (out_err o) =
    Some "code: 25 | success: false | message: Your request count (41) is over the allowed limit of 40.".
Proof.
  eexists. split; [vm_compute; reflexivity|]. repeat split.
Qed.

(* ===================================================================== *)
(** * No Content *)
(* ===================================================================== *)

Section NoContent.
Context {RB : RequestBuilder} {UE : Unmarshaler Error}.
Context {T : Type} {UT : Unmarshaler T} {B : Type} {MB : Marshaler B}.

(** C5, as amended. For a call that reaches its loop:
    - a 204 makes [get] return no error after that one round trip, the
      target left as it was (nothing is decoded);
    - [request] answers a 204, like every status at least 300 or below
      200 that it does not retry (a 429 is retried when auto-retry is
      on), by returning the error [decodeError] builds from the
      response, the target left as it was. *)
Theorem no_content (c : Client) (n : nat) (url : string) (body : B)
    (method : string) (data : T) (res : net_http.Response) :
  url <> EmptyString ->
  NewRequest_error "GET" url = None ->
  NewRequest_error method url = None ->
  let c' := default_timeout c in
  let greq := get_req url in
  let rreq := request_req method url (json_Encode body) in
  (net_http.StatusCode res = 204 ->
   net_http.Do (http c') n greq = net_http.RoundTripOk res ->
   forall fuel, get (S fuel) c n url data = one_round_trip c' greq n data None) /\
  (300 <= net_http.StatusCode res \/ net_http.StatusCode res < 200 \/
   net_http.StatusCode res = 204 ->
   (net_http.StatusCode res = 429 -> autoRetry c = false) ->
   net_http.Do (http c') n rreq = net_http.RoundTripOk res ->
   forall fuel,
     request (S fuel) c n url body method data =
     one_round_trip c' rreq n data (Some (decodeError c' res))).
Proof.
  intros Hurl Hget Hreq c' greq rreq. split.
  - intros Hs Hdo fuel. rewrite get_unfold by assumption.
    apply (for_loop_one _ _ _ _ _ res); [exact Hdo|].
    apply get_iter_204. exact Hs.
  - intros Hs Hretry Hdo fuel. rewrite request_unfold by assumption.
    apply (for_loop_one _ _ _ _ _ res); [exact Hdo|].
    apply request_iter_error; [exact Hs|].
    unfold c'. rewrite default_timeout_autoRetry. exact Hretry.
Qed.

End NoContent.

(** [no_content] at work: a 204 is a success for [get] and an error for
    [request]. *)
Lemma no_content_witness :
  get (RB := accept_all) (UE := Error_Decode) (UT := Response_Decode) 1
    (mock_client false (scripted (answers [no_content_response])))
    0 movie_url Response_zero =
  one_round_trip
    (default_timeout (mock_client false (scripted (answers [no_content_response]))))
    (get_req movie_url) 0 Response_zero None /\
  request (RB := accept_all) (UE := Error_Decode) (UT := Response_Decode)
    (MB := nil_Marshal) 1
    (mock_client false (scripted (answers [no_content_response])))
    0 movie_url tt "DELETE" Response_zero =
  one_round_trip
    (default_timeout (mock_client false (scripted (answers [no_content_response]))))
    (request_req "DELETE" movie_url (json_Encode (MB := nil_Marshal) tt)) 0 Response_zero
    (Some (errors_New "[204]: empty body No Content")).
Proof.
  pose proof (no_content (RB := accept_all) (UE := Error_Decode) (UT := Response_Decode)
                (MB := nil_Marshal)
                (mock_client false (scripted (answers [no_content_response])))
                0 movie_url tt "DELETE" Response_zero no_content_response
                ltac:(discriminate) eq_refl eq_refl) as [Hget Hrequest].
  split.
  - exact (Hget eq_refl eq_refl 0%nat).
  - refine (Hrequest _ _ eq_refl 0%nat).
    + right. right. reflexivity.
    + discriminate.
Defined.

(** C5 as stated fails on a status of at least 300 that [request]
    retries: with auto-retry on, [over_limit] (a 429) followed by
    [fight_club] (a 200) is no error at all, and two round trips. *)
Lemma no_content_counterexample :
  exists o,
    request (RB := accept_all) (UE := Error_Decode) (UT := Response_Decode)
      (MB := nil_Marshal) 5
      (mock_client true (scripted (answers [over_limit; fight_club])))
      0 movie_url tt "POST" Response_zero = Done o /\
    out_err o = None /\
    out_data o = {| Response_StatusCode := 1; Response_StatusMessage := "Success." |} /\
    count_sends (out_events o) = 2%nat.
Proof.
  eexists. split; [vm_compute; reflexivity|]. repeat split.
Qed.

(* ===================================================================== *)
(** * The retry loop has no attempt cap *)
(* ===================================================================== *)

Lemma retry_until_terminal_ext {T} (run run' : nat -> Run T) (retry retry' : nat -> bool) n :
  (forall fuel, run fuel = run' fuel) ->
  (forall k, retry k = retry' k) ->
  retry_until_terminal run retry n -> retry_until_terminal run' retry' n.
Proof.
  intros Hrun Hretry (Hiff & Hspin & Hret & Hmono). split; [split|split; [|split]].
  - intros (fuel & o & Ho). rewrite <- Hrun in Ho.
    destruct (proj1 Hiff (ex_intro _ fuel (ex_intro _ o Ho))) as (k & Hle & Hk).
    exists k. rewrite <- Hretry. auto.
  - intros (k & Hle & Hk). rewrite <- Hretry in Hk.
    destruct (proj2 Hiff (ex_intro _ k (conj Hle Hk))) as (fuel & o & Ho).
    exists fuel, o. rewrite <- Hrun. exact Ho.
  - intros Hall fuel. rewrite <- Hrun. apply Hspin.
    intros k Hk. rewrite Hretry. auto.
  - intros N Hall Hstop fuel Hfuel. rewrite <- Hrun. apply Hret; [|rewrite Hretry|]; auto.
    intros k Hk. rewrite Hretry. auto.
  - intros fuel fuel' o Ho Hle. rewrite <- Hrun in Ho |- *. eapply Hmono; eassumption.
Qed.

Section Unbounded.
Context {RB : RequestBuilder} {UE : Unmarshaler Error}.
Context {T : Type} {UT : Unmarshaler T} {B : Type} {MB : Marshaler B}.

(** C9. With auto-retry on, a call that reaches its loop retries until a
    terminal answer, with no cap on the attempts: it returns exactly
    when the transport, from the call's first round trip on, yields an
    error or a response whose status does not retry (any but 429 for
    [get], any but 202 and 429 for [request]); when every answer
    retries it never returns, whatever the number of iterations; and
    when the first terminal answer comes after [N] retrying ones it
    returns after [N + 1] round trips, for every [N]. *)
Theorem retry_has_no_cap (c : Client) (n : nat) (url : string) (body : B)
    (method : string) (data : T) :
  autoRetry c = true ->
  url <> EmptyString ->
  NewRequest_error "GET" url = None ->
  NewRequest_error method url = None ->
  let c' := default_timeout c in
  retry_until_terminal
    (fun fuel => get fuel c n url data)
    (fun k => answer_status_in [429] (net_http.Do (http c') k (get_req url))) n /\
  retry_until_terminal
    (fun fuel => request fuel c n url body method data)
    (fun k => answer_status_in [202; 429]
                (net_http.Do (http c') k (request_req method url (json_Encode body)))) n.
Proof.
  intros Hauto Hurl Hget Hreq c'.
  assert (autoRetry c' = true) as Hauto'
    by (unfold c'; rewrite default_timeout_autoRetry; exact Hauto).
  split.
  - apply (retry_until_terminal_ext
             (fun fuel => for_loop fuel (get_iter c' data) c' (get_req url) n [])
             _
             (fun k => is_Continue (get_iter c' data (net_http.Do (http c') k (get_req url))))
             _ n);
      [| |apply for_loop_retry_until_terminal].
    + intros fuel. symmetry. apply get_unfold; assumption.
    + intros k. rewrite get_iter_retries. unfold get_retries, answer_status_in.
      destruct (net_http.Do _ _ _) as [e|res]; [reflexivity|].
      rewrite Hauto'. cbn. rewrite andb_true_r, orb_false_r. reflexivity.
  - apply (retry_until_terminal_ext
             (fun fuel => for_loop fuel (request_iter c' data) c'
                            (request_req method url (json_Encode body)) n [])
             _
             (fun k => is_Continue
                         (request_iter c' data
                            (net_http.Do (http c') k
                               (request_req method url (json_Encode body)))))
             _ n);
      [| |apply for_loop_retry_until_terminal].
    + intros fuel. symmetry. apply request_unfold; assumption.
    + intros k. rewrite request_iter_retries. unfold request_retries, answer_status_in.
      destruct (net_http.Do _ _ _) as [e|res]; [reflexivity|].
      rewrite Hauto'. cbn. rewrite orb_false_r. reflexivity.
Qed.

End Unbounded.

(** [retry_has_no_cap] at work. A transport that answers 429 for ever
    keeps [get] in its loop, one round trip for each iteration it is
    given; a transport that answers 429 twice and then 200 lets it
    return after three round trips. *)
Lemma retry_has_no_cap_witness :
  (exists evs,
     get (RB := accept_all) (UE := Error_Decode) (UT := Response_Decode) 7
       (mock_client true (always (net_http.RoundTripOk over_limit)))
       0 movie_url Response_zero = OutOfFuel evs /\
     count_sends evs = 7%nat) /\
  (exists o,
     get (RB := accept_all) (UE := Error_Decode) (UT := Response_Decode) 7
       (mock_client true (scripted (answers [over_limit; busy_3s; fight_club])))
       0 movie_url Response_zero = Done o /\
     count_sends (out_events o) = 3%nat /\ out_sent o = 3%nat).
Proof.
  split.
  - refine (proj1 (proj2 (proj1 (retry_has_no_cap (RB := accept_all) (UE := Error_Decode)
              (UT := Response_Decode) (MB := nil_Marshal)
              (mock_client true (always (net_http.RoundTripOk over_limit)))
              0 movie_url tt "POST" Response_zero _ _ _ _))) _ 7%nat);
      (discriminate || reflexivity).
  - refine (proj1 (proj2 (proj2 (proj1 (retry_has_no_cap (RB := accept_all)
              (UE := Error_Decode) (UT := Response_Decode) (MB := nil_Marshal)
              (mock_client true (scripted (answers [over_limit; busy_3s; fight_club])))
              0 movie_url tt "POST" Response_zero _ _ _ _)))) 2%nat _ _ 7%nat _);
      try (discriminate || reflexivity).
    + intros k Hk. assert (k = 0 \/ k = 1)%nat as [-> | ->] by lia; reflexivity.
    + lia.
Defined.

(* ===================================================================== *)
(** * What the executors do to the handle *)
(* ===================================================================== *)

Section Frame.
Context {RB : RequestBuilder} {UE : Unmarshaler Error}.
Context {T : Type} {UT : Unmarshaler T} {B : Type} {MB : Marshaler B}.

Lemma get_client fuel c n url (data : T) o :
  get fuel c n url data = Done o -> out_client o = handle_after c url.
Proof.
  destruct url as [|a url].
  - rewrite get_empty_url. intros Ho. injection Ho as <-. reflexivity.
  - destruct (NewRequest_error "GET" (String a url)) as [e|] eqn:Hreq.
    + rewrite (get_build_error _ _ _ _ _ e) by (discriminate || assumption).
      intros Ho. injection Ho as <-. reflexivity.
    + rewrite get_unfold by (discriminate || assumption). apply for_loop_client.
Qed.

Lemma request_client fuel c n url (body : B) method (data : T) o :
  request fuel c n url body method data = Done o -> out_client o = handle_after c url.
Proof.
  destruct url as [|a url].
  - rewrite request_empty_url. intros Ho. injection Ho as <-. reflexivity.
  - destruct (NewRequest_error method (String a url)) as [e|] eqn:Hreq.
    + rewrite (request_build_error _ _ _ _ _ _ _ e) by (discriminate || assumption).
      intros Ho. injection Ho as <-. reflexivity.
    + rewrite request_unfold by (discriminate || assumption). apply for_loop_client.
Qed.






Lemma handle_after_frame c url :
  apiKey (handle_after c url) = apiKey c /\
  sessionID (handle_after c url) = sessionID c /\
  autoRetry (handle_after c url) = autoRetry c /\
  withContext (handle_after c url) = withContext c /\
  net_http.Transport (http (handle_after c url)) = net_http.Transport (http c).
Proof.
  destruct url as [|a url]; cbn [handle_after]; [repeat split|].
  unfold default_timeout. destruct (_ =? _); repeat split.
Qed.


End Frame.



(* ===================================================================== *)
(** * Empty inputs *)
(* ===================================================================== *)

Section EmptyInputs.
Context {NW : Network} {RB : RequestBuilder} {UE : Unmarshaler Error}.
Context {T : Type} {UT : Unmarshaler T} {B : Type} {MB : Marshaler B}.

(** C7. An empty API key, session id or URL makes the operation fail at
    once with a usage error, without a round trip and with the handle
    left as it was: [Init] returns no handle, [SetSessionID] returns
    the handle unchanged, and both executors return the handle and the
    target unchanged, with no event and the round trip counter where it
    was. A session id that is not empty replaces the stored one, and
    the handle keeps it through every later call of an executor. *)
Theorem empty_inputs_rejected (c : Client) (fuel n : nat) (body : B)
    (method : string) (data : T) (sid : string) :
  Init EmptyString = inr (errors_New "APIKey is empty") /\
  SetSessionID c EmptyString = (c, Some (errors_New "The SessionID is empty")) /\
  get fuel c n EmptyString data =
  Done {| out_client := c; out_data := data;
          out_err := Some (errors_New "url field is empty");
          out_sent := n; out_events := [] |} /\
  request fuel c n EmptyString body method data =
  Done {| out_client := c; out_data := data;
          out_err := Some (errors_New "url field is empty");
          out_sent := n; out_events := [] |} /\
  (sid <> EmptyString ->
   SetSessionID c sid = (set_sessionID c sid, None) /\
   sessionID (fst (SetSessionID c sid)) = sid /\
   forall fuel2 n2 url2 (body2 : B) method2 (data2 : T) o2,
     get fuel2 (fst (SetSessionID c sid)) n2 url2 data2 = Done o2 \/
     request fuel2 (fst (SetSessionID c sid)) n2 url2 body2 method2 data2 = Done o2 ->
     sessionID (out_client o2) = sid).
Proof.
  repeat (split; [reflexivity|]).
  intros Hsid.
  assert (SetSessionID c sid = (set_sessionID c sid, None)) as Hset
    by (destruct sid; [contradiction|reflexivity]).
  rewrite Hset. cbn [fst]. repeat split.
  intros fuel2 n2 url2 body2 method2 data2 o2 Ho2.
  assert (out_client o2 = handle_after (set_sessionID c sid) url2) as ->
    by (destruct Ho2; [eapply get_client|eapply request_client]; eassumption).
  destruct (handle_after_frame (set_sessionID c sid) url2) as (_ & -> & _).
  reflexivity.
Qed.

End EmptyInputs.

(** [empty_inputs_rejected] at work: a session id that is not empty is
    stored. *)
Lemma empty_inputs_rejected_witness :
  SetSessionID (mock_client false (scripted [])) "abc" =
  (set_sessionID (mock_client false (scripted [])) "abc", None) /\
  sessionID (fst (SetSessionID (mock_client false (scripted [])) "abc")) = "abc".
Proof.
  destruct (proj2 (proj2 (proj2 (proj2
              (empty_inputs_rejected (NW := no_network) (RB := accept_all)
                 (UE := Error_Decode) (UT := Response_Decode) (MB := nil_Marshal)
                 (mock_client false (scripted [])) 1 0 tt "POST" Response_zero "abc"))))
              ltac:(discriminate)) as (Hset & Hsid & _).
  split; [exact Hset|exact Hsid].
Defined.

(* ===================================================================== *)
(** * Retry policy: [retryDuration] *)
(* ===================================================================== *)

Section Decimal.

Lemma is_digit_spec (c : ascii) : is_digit c = true <-> 48 <= byte_of c <= 57.
Proof. unfold is_digit. rewrite andb_true_iff, !Z.leb_le. reflexivity. Qed.

Lemma is_digit_not_sign (c : ascii) :
  is_digit c = true -> ascii_eqb c "-" = false /\ ascii_eqb c "+" = false.
Proof.
  intros Hd. unfold ascii_eqb. split.
  - destruct (Ascii.eqb c "-") eqn:He; [|reflexivity].
    apply Ascii.eqb_eq in He. subst c. discriminate.
  - destruct (Ascii.eqb c "+") eqn:He; [|reflexivity].
    apply Ascii.eqb_eq in He. subst c. discriminate.
Qed.

Lemma append_nil (t : string) : EmptyString +:+ t = t.
Proof. reflexivity. Qed.

Lemma append_cons (a : ascii) (s t : string) : String a s +:+ t = String a (s +:+ t).
Proof. reflexivity. Qed.

Lemma append_empty_r (s : string) : s +:+ EmptyString = s.
Proof.
  induction s as [|a s IH]; [reflexivity|]. rewrite append_cons, IH. reflexivity.
Qed.

Lemma append_assoc_string (a b c : string) : (a +:+ b) +:+ c = a +:+ (b +:+ c).
Proof.
  induction a as [|x a IH]; [reflexivity|]. rewrite !append_cons, IH. reflexivity.
Qed.

Lemma all_digits_app (s1 s2 : string) :
  all_digits (s1 +:+ s2) = all_digits s1 && all_digits s2.
Proof.
  induction s1 as [|a s1 IH]; [reflexivity|].
  rewrite append_cons. cbn [all_digits]. rewrite IH, andb_assoc. reflexivity.
Qed.

Lemma decimal_value_app (s1 s2 : string) : forall a,
  decimal_value (s1 +:+ s2) a = decimal_value s2 (decimal_value s1 a).
Proof.
  induction s1 as [|c s1 IH]; intros a; [reflexivity|].
  rewrite append_cons. cbn [decimal_value]. apply IH.
Qed.

(** Reading more digits never makes the number smaller. *)
Lemma decimal_value_ge (s : string) : forall a,
  all_digits s = true -> 0 <= a -> a <= decimal_value s a.
Proof.
  induction s as [|c s IH]; intros a Hall Ha; cbn in *; [lia|].
  apply andb_true_iff in Hall as [Hc Hall]. apply is_digit_spec in Hc.
  specialize (IH (a * 10 + (byte_of c - 48)) Hall). lia.
Qed.

Lemma digit_char_spec (d : Z) :
  0 <= d <= 9 ->
  is_digit (fmt.digit_char d) = true /\ byte_of (fmt.digit_char d) - 48 = d.
Proof.
  intros Hd.
  assert (d = 0 \/ d = 1 \/ d = 2 \/ d = 3 \/ d = 4 \/ d = 5 \/ d = 6 \/ d = 7 \/
          d = 8 \/ d = 9) as Hcases by lia.
  repeat (destruct Hcases as [->|Hcases]; [split; reflexivity|]).
  subst d. split; reflexivity.
Qed.

Lemma utoa_aux_S (fuel : nat) (n : Z) (acc : string) :
  fmt.utoa_aux (S fuel) n acc =
  if n <? 10 then String (fmt.digit_char (n mod 10)) acc
  else fmt.utoa_aux fuel (n / 10) (String (fmt.digit_char (n mod 10)) acc).
Proof. reflexivity. Qed.

(** [utoa_aux] puts the decimal digits of [n] in front of [acc]. *)
Lemma utoa_aux_spec (f : nat) : forall n acc,
  0 <= n < 2 ^ (Z.of_nat f + 1) ->
  exists ds, fmt.utoa_aux (S f) n acc = ds +:+ acc /\
             ds <> EmptyString /\ all_digits ds = true /\ decimal_value ds 0 = n.
Proof.
  induction f as [|f IH]; intros n acc Hn.
  - change (2 ^ (Z.of_nat 0 + 1)) with 2 in Hn.
    destruct (digit_char_spec n ltac:(lia)) as [Hd Hv].
    exists (String (fmt.digit_char n) EmptyString). rewrite utoa_aux_S.
    assert ((n <? 10) = true) as -> by (apply Z.ltb_lt; lia).
    rewrite Z.mod_small by lia. cbn [all_digits decimal_value].
    rewrite Hd, Hv. repeat split. discriminate.
  - rewrite utoa_aux_S. destruct (n <? 10) eqn:Hlt.
    + apply Z.ltb_lt in Hlt.
      destruct (digit_char_spec n ltac:(lia)) as [Hd Hv].
      exists (String (fmt.digit_char n) EmptyString).
      rewrite Z.mod_small by lia. cbn [all_digits decimal_value].
      rewrite Hd, Hv. repeat split. discriminate.
    + apply Z.ltb_ge in Hlt.
      assert (0 <= n mod 10 <= 9) as Hmod by (pose proof (Z.mod_pos_bound n 10); lia).
      destruct (digit_char_spec (n mod 10) Hmod) as [Hd Hv].
      destruct (IH (n / 10) (String (fmt.digit_char (n mod 10)) acc)) as (ds & Heq & Hne & Hall & Hval).
      { split; [apply Z.div_pos; lia|].
        apply Z.div_lt_upper_bound; [lia|].
        replace (Z.of_nat (S f) + 1) with (Z.succ (Z.of_nat f + 1)) in Hn by lia.
        rewrite Z.pow_succ_r in Hn by lia. lia. }
      exists (ds +:+ String (fmt.digit_char (n mod 10)) EmptyString).
      split; [|split; [|split]].
      * rewrite Heq, append_assoc_string. reflexivity.
      * destruct ds; [contradiction|discriminate].
      * rewrite all_digits_app, Hall. cbn [all_digits andb]. rewrite Hd. reflexivity.
      * rewrite decimal_value_app, Hval. cbn [decimal_value]. rewrite Hv.
        pose proof (Z.div_mod n 10). lia.
Qed.

Lemma utoa_spec (n : Z) :
  0 <= n ->
  fmt.utoa n <> EmptyString /\ all_digits (fmt.utoa n) = true /\
  decimal_value (fmt.utoa n) 0 = n.
Proof.
  intros Hn. unfold fmt.utoa.
  destruct (utoa_aux_spec (Z.to_nat (Z.log2 n)) n EmptyString) as (ds & -> & Hne & Hall & Hval).
  { split; [exact Hn|]. rewrite Z2Nat.id by apply Z.log2_nonneg.
    destruct (Z.eq_dec n 0) as [->|Hpos]; [reflexivity|].
    replace (Z.log2 n + 1) with (Z.succ (Z.log2 n)) by lia.
    apply Z.log2_spec. lia. }
  rewrite append_empty_r. auto.
Qed.

Lemma unsigned_decimal_utoa (n : Z) :
  0 <= n -> unsigned_decimal (fmt.utoa n) = Some n.
Proof.
  intros Hn. destruct (utoa_spec n Hn) as (Hne & Hall & Hval).
  unfold unsigned_decimal. destruct (fmt.utoa n); [contradiction|].
  rewrite Hall, Hval. reflexivity.
Qed.

(** What [%d] prints reads back as the number printed. *)
Lemma signed_decimal_itoa (n : Z) : signed_decimal (fmt.itoa n) = Some n.
Proof.
  unfold fmt.itoa. destruct (n <? 0) eqn:Hneg.
  - apply Z.ltb_lt in Hneg. cbn [signed_decimal].
    change (ascii_eqb "-" "-") with true. cbv iota.
    rewrite unsigned_decimal_utoa by lia. cbn. f_equal. lia.
  - apply Z.ltb_ge in Hneg.
    pose proof (unsigned_decimal_utoa n Hneg) as Hu.
    destruct (utoa_spec n Hneg) as (Hne & Hall & _).
    destruct (fmt.utoa n) as [|c r]; [contradiction|].
    cbn [signed_decimal]. cbn [all_digits] in Hall.
    apply andb_true_iff in Hall as [Hc _].
    destruct (is_digit_not_sign c Hc) as [-> ->]. exact Hu.
Qed.

End Decimal.

Section ParseInt32.

Lemma ParseUint_loop_digits (s : string) : forall n,
  all_digits s = true -> 0 <= n <= maxUint32 ->
  strconv.ParseUint_loop s maxUint32 n =
  if decimal_value s n <=? maxUint32
  then (decimal_value s n, None)
  else (maxUint32, Some strconv.ErrRange).
Proof.
  unfold maxUint32.
  induction s as [|c s IH]; intros n Hall Hn; cbn [strconv.ParseUint_loop decimal_value].
  - assert ((n <=? 2 ^ 32 - 1) = true) as -> by (apply Z.leb_le; lia). reflexivity.
  - cbn [all_digits] in Hall. apply andb_true_iff in Hall as [Hc Hall].
    rewrite Hc. apply is_digit_spec in Hc.
    assert ((strconv.cutoff <=? n) = false) as ->.
    { apply Z.leb_gt. unfold strconv.cutoff, strconv.maxUint64.
      change (2 ^ 32 - 1) with 4294967295 in Hn.
      change ((2 ^ 64 - 1) / 10 + 1) with 1844674407370955162. lia. }
    cbv zeta.
    assert (wrap_u64 (n * 10 + (byte_of c - 48)) = n * 10 + (byte_of c - 48)) as ->.
    { unfold wrap_u64. apply Z.mod_small.
      change (2 ^ 32 - 1) with 4294967295 in Hn.
      change (2 ^ 64) with 18446744073709551616. lia. }
    assert ((n * 10 + (byte_of c - 48) <? n * 10) = false) as ->
      by (apply Z.ltb_ge; lia).
    cbn [orb].
    destruct (2 ^ 32 - 1 <? n * 10 + (byte_of c - 48)) eqn:Hover.
    + apply Z.ltb_lt in Hover.
      pose proof (decimal_value_ge s (n * 10 + (byte_of c - 48)) Hall ltac:(lia)) as Hge.
      assert ((decimal_value s (n * 10 + (byte_of c - 48)) <=? 2 ^ 32 - 1) = false) as ->
        by (apply Z.leb_gt; lia).
      reflexivity.
    + apply Z.ltb_ge in Hover. apply IH; [exact Hall|lia].
Qed.

Lemma ParseUint_loop_not_digits (s : string) : forall maxVal n,
  all_digits s = false ->
  exists un e, strconv.ParseUint_loop s maxVal n = (un, Some e).
Proof.
  induction s as [|c s IH]; intros maxVal n Hall; [discriminate|].
  cbn [strconv.ParseUint_loop]. cbn [all_digits] in Hall.
  destruct (is_digit c); [|eauto]. cbn [andb] in Hall.
  destruct (strconv.cutoff <=? n); [eauto|]. cbv zeta.
  destruct (_ || _); [eauto|]. apply IH. exact Hall.
Qed.

Lemma ParseUint_loop_range (s : string) : forall maxVal n un,
  strconv.ParseUint_loop s maxVal n = (un, Some strconv.ErrRange) -> un = maxVal.
Proof.
  induction s as [|c s IH]; intros maxVal n un; cbn [strconv.ParseUint_loop];
    [discriminate|].
  destruct (is_digit c); [|discriminate].
  destruct (strconv.cutoff <=? n); [congruence|]. cbv zeta.
  destruct (_ || _); [congruence|]. apply IH.
Qed.

(** [ParseUint(s, 10, 32)] against the reading of [s] as digits. *)
Lemma ParseUint_32 (s : string) :
  match unsigned_decimal s with
  | Some v =>
      0 <= v /\
      strconv.ParseUint s 32 =
      if v <=? maxUint32 then (v, None) else (maxUint32, Some strconv.ErrRange)
  | None =>
      strconv.ParseUint s 32 = (0, Some strconv.ErrSyntax) \/
      strconv.ParseUint s 32 = (maxUint32, Some strconv.ErrRange)
  end.
Proof.
  destruct s as [|c s]; [left; reflexivity|].
  unfold unsigned_decimal, strconv.ParseUint. fold maxUint32.
  destruct (all_digits (String c s)) eqn:Hall.
  - split.
    + apply (decimal_value_ge (String c s) 0 Hall). lia.
    + apply ParseUint_loop_digits; [exact Hall|]. unfold maxUint32. lia.
  - destruct (ParseUint_loop_not_digits (String c s) maxUint32 0 Hall) as (un & e & Heq).
    rewrite Heq. destruct e; [|right; f_equal; eapply ParseUint_loop_range; eassumption].
    left. f_equal.
    clear Hall. revert Heq. generalize 0 at 1. generalize (String c s). clear.
    intros s. induction s as [|c s IH]; intros n; cbn [strconv.ParseUint_loop];
      [discriminate|].
    destruct (is_digit c); [|congruence].
    destruct (strconv.cutoff <=? n); [discriminate|]. cbv zeta.
    destruct (_ || _); [discriminate|]. apply IH.
Qed.

(** [ParseInt(s, 10, 32)] succeeds exactly on the signed decimal
    literals that fit 32 bits, with their value. *)
Lemma ParseInt_32 (s : string) :
  match retry_after_seconds s with
  | Some n => - 2 ^ 31 <= n < 2 ^ 31 /\ strconv.ParseInt s 32 = (n, None)
  | None => exists v e, strconv.ParseInt s 32 = (v, Some e)
  end.
Proof.
  destruct s as [|c s]; [cbn; eauto|].
  unfold retry_after_seconds, signed_decimal, strconv.ParseInt.
  change (2 ^ (32 - 1)) with 2147483648. change (2 ^ 31) with 2147483648.
  destruct (ascii_eqb c "-") eqn:Hminus.
  - rewrite orb_true_r. cbn [negb andb].
    pose proof (ParseUint_32 s) as Hu. unfold maxUint32 in Hu.
    change (2 ^ 32 - 1) with 4294967295 in Hu.
    destruct (unsigned_decimal s) as [v|]; cbn [option_map].
    + destruct Hu as [Hv Hu]. rewrite Hu.
      destruct (v <=? 4294967295) eqn:Hfit; cbv iota beta.
      * destruct (2147483648 <? v) eqn:Hcut; destruct (_ && _) eqn:Hr;
          Zbool; try lia; eauto; (split; [lia|reflexivity]).
      * change (2147483648 <? 4294967295) with true. cbv iota.
        destruct (_ && _) eqn:Hr; Zbool; try lia; eauto.
    + destruct Hu as [-> | ->]; cbn; eauto.
  - cbn [negb andb]. rewrite orb_false_r.
    set (s1 := if ascii_eqb c "+" then s else String c s).
    assert ((if ascii_eqb c "+" then unsigned_decimal s
             else unsigned_decimal (String c s)) = unsigned_decimal s1) as ->
      by (unfold s1; destruct (ascii_eqb c "+"); reflexivity).
    pose proof (ParseUint_32 s1) as Hu. unfold maxUint32 in Hu.
    change (2 ^ 32 - 1) with 4294967295 in Hu.
    destruct (unsigned_decimal s1) as [v|].
    + destruct Hu as [Hv Hu]. rewrite Hu.
      destruct (v <=? 4294967295) eqn:Hfit; cbv iota beta.
      * destruct (2147483648 <=? v) eqn:Hcut; destruct (_ && _) eqn:Hr;
          Zbool; try lia; eauto; (split; [lia|reflexivity]).
      * change (2147483648 <=? 4294967295) with true. cbv iota.
        destruct (_ && _) eqn:Hr; Zbool; try lia; eauto.
    + destruct Hu as [-> | ->]; cbn; eauto.
Qed.

End ParseInt32.

Section RetryDuration.

Lemma Duration_seconds (n : Z) :
  - 2 ^ 31 <= n < 2 ^ 31 -> Duration_mul n time_Second = n * time_Second.
Proof.
  intros Hn. unfold Duration_mul, wrap_i64, time_Second.
  change (2 ^ 31) with 2147483648 in Hn.
  change (2 ^ 63) with 9223372036854775808.
  change (2 ^ 64) with 18446744073709551616.
  rewrite Z.mod_small by lia. lia.
Qed.

(** [retryDuration] against the reading of the header value as a signed
    decimal literal. *)
Lemma retryDuration_reading (resp : net_http.Response) :
  retryDuration resp =
  match retry_after_seconds
          (net_http.Header_Get (net_http.Header resp) "Retry-After") with
  | Some n => n * time_Second
  | None => 5 * time_Second
  end.
Proof.
  unfold retryDuration. cbv zeta.
  set (h := net_http.Header_Get (net_http.Header resp) "Retry-After").
  pose proof (ParseInt_32 h) as Hp.
  destruct h as [|c h]; [reflexivity|].
  destruct (retry_after_seconds (String c h)) as [n|].
  - destruct Hp as [Hn ->]. apply Duration_seconds. exact Hn.
  - destruct Hp as (v & e & ->). reflexivity.
Qed.

Lemma retry_after_seconds_itoa (n : Z) :
  retry_after_seconds (fmt.itoa n) =
  if (- 2 ^ 31 <=? n) && (n <? 2 ^ 31) then Some n else None.
Proof. unfold retry_after_seconds. rewrite signed_decimal_itoa. reflexivity. Qed.

(** C3, as amended. [retryDuration] returns [n] seconds when the first
    value of the Retry-After header is a signed decimal literal (an
    optional sign, then digits) whose value [n] fits 32 bits, and five
    seconds when the header is absent or its value is empty or no such
    literal. So for every [n] from -2^31 to 2^31 - 1 printed in decimal,
    negative [n] included, the result is [n] seconds; for every [n]
    outside that range it is five seconds. *)
Theorem retryDuration_spec (resp : net_http.Response) :
  let h := net_http.Header_Get (net_http.Header resp) "Retry-After" in
  retryDuration resp =
  match retry_after_seconds h with
  | Some n => n * time_Second
  | None => 5 * time_Second
  end /\
  (net_http.Header resp !! "Retry-After" = None -> retryDuration resp = 5 * time_Second) /\
  (h = EmptyString -> retryDuration resp = 5 * time_Second) /\
  (signed_decimal h = None -> retryDuration resp = 5 * time_Second) /\
  (forall n, h = fmt.itoa n -> - 2 ^ 31 <= n < 2 ^ 31 ->
             retryDuration resp = n * time_Second) /\
  (forall n, h = fmt.itoa n -> n < - 2 ^ 31 \/ 2 ^ 31 <= n ->
             retryDuration resp = 5 * time_Second).
Proof.
  intros h. pose proof (retryDuration_reading resp) as Hr. fold h in Hr.
  split; [exact Hr|]. split; [|split; [|split; [|split]]].
  - intros Habsent. rewrite Hr. unfold h, net_http.Header_Get.
    change (net_http.CanonicalMIMEHeaderKey "Retry-After") with "Retry-After".
    rewrite Habsent. reflexivity.
  - intros Hempty. rewrite Hr, Hempty. reflexivity.
  - intros Hnone. rewrite Hr. unfold retry_after_seconds. rewrite Hnone. reflexivity.
  - intros n Hh Hn. rewrite Hr, Hh, retry_after_seconds_itoa.
    destruct (_ && _) eqn:Hb; [reflexivity|]. Zbool; lia.
  - intros n Hh Hn. rewrite Hr, Hh, retry_after_seconds_itoa.
    destruct (_ && _) eqn:Hb; [|reflexivity]. Zbool; lia.
Qed.

End RetryDuration.

(** [retryDuration_spec] at work: "Retry-After: 3" is three seconds, and
    a response without the header five. *)
Lemma retryDuration_spec_witness :
  retryDuration (mock_response 429 ["3"] EmptyString) = 3 * time_Second /\
  retryDuration (mock_response 429 [] EmptyString) = 5 * time_Second /\
  retryDuration (mock_response 429 ["soon"] EmptyString) = 5 * time_Second.
Proof.
  split; [|split].
  - refine (proj1 (proj2 (proj2 (proj2 (proj2
              (retryDuration_spec (mock_response 429 ["3"] EmptyString)))))) 3 _ _).
    + reflexivity.
    + change (2 ^ 31) with 2147483648. lia.
  - exact (proj1 (proj2 (retryDuration_spec (mock_response 429 [] EmptyString))) eq_refl).
  - exact (proj1 (proj2 (proj2 (proj2
              (retryDuration_spec (mock_response 429 ["soon"] EmptyString))))) eq_refl).
Defined.

(** C3 as stated fails on a negative header value: "Retry-After: -3" is
    no non-negative integer, and the result is minus three seconds, not
    five. *)
Lemma retryDuration_spec_counterexample :
  net_http.Header_Get (net_http.Header (mock_response 429 ["-3"] EmptyString))
    "Retry-After" = "-3" /\
  retryDuration (mock_response 429 ["-3"] EmptyString) = -3 * time_Second /\
  (retryDuration (mock_response 429 ["-3"] EmptyString) =? 5 * time_Second) = false.
Proof. repeat split. Qed.

(* ===================================================================== *)
(** * Option formatting *)
(* ===================================================================== *)

Section FormatOptions.

Lemma fmtOptions_range_from (order : list (string * string)) : forall acc,
  fold_left
    (fun options kv =>
       options +:+ ("&" +:+ fst kv +:+ "=" +:+ net_url.QueryEscape (snd kv)))
    order acc =
  acc +:+ concat_strings (map option_entry order).
Proof.
  induction order as [|kv order IH]; intros acc.
  - cbn [fold_left map concat_strings fold_right]. rewrite append_empty_r. reflexivity.
  - cbn [fold_left map concat_strings fold_right]. rewrite IH.
    rewrite append_assoc_string. reflexivity.
Qed.

Lemma fmtOptions_range_concat (order : list (string * string)) :
  fmtOptions_range order = concat_strings (map option_entry order).
Proof. unfold fmtOptions_range. rewrite fmtOptions_range_from. reflexivity. Qed.

(** The two orders in which [range] can visit [example_options]. *)
Lemma example_orders (order : list (string * string)) :
  iteration_order example_options order ->
  order = [("a", "1 2"); ("b", "x")] \/ order = [("b", "x"); ("a", "1 2")].
Proof.
  unfold iteration_order.
  change (map_to_list example_options) with [("a", "1 2"); ("b", "x")].
  intros Hperm. symmetry in Hperm. apply Permutation_length_2_inv in Hperm.
  exact Hperm.
Qed.

(** C4, as amended. Whatever the order in which the map is visited,
    [fmtOptions] yields the concatenation, over the entries in that
    order, of [&], the key, [=] and the query-escaped value. For the
    options a = "1 2" and b = "x" the result holds [&a=1+2] (a space is
    escaped as a plus sign) and [&b=x], each exactly once, in either
    order. *)
Theorem fmtOptions_spec (c : Client) :
  (forall (urlOptions : gmap string string) (order : list (string * string)),
     iteration_order urlOptions order ->
     fmtOptions c urlOptions order = concat_strings (map option_entry order)) /\
  (forall order : list (string * string),
     iteration_order example_options order ->
     (fmtOptions c example_options order = "&a=1+2&b=x" \/
      fmtOptions c example_options order = "&b=x&a=1+2") /\
     count_substring "&a=1+2" (fmtOptions c example_options order) = 1%nat /\
     count_substring "&b=x" (fmtOptions c example_options order) = 1%nat).
Proof.
  split.
  - intros urlOptions order Horder. unfold fmtOptions.
    destruct (0 <? Z.of_nat (size urlOptions)) eqn:Hsize.
    + apply fmtOptions_range_concat.
    + apply Z.ltb_ge in Hsize.
      assert (size urlOptions = 0%nat) as Hzero by lia.
      apply map_size_empty_iff in Hzero. subst urlOptions.
      unfold iteration_order in Horder. rewrite map_to_list_empty in Horder.
      apply Permutation_nil_r in Horder. subst order. reflexivity.
  - intros order Horder.
    destruct (example_orders order Horder) as [-> | ->]; vm_compute; auto.
Qed.

End FormatOptions.

(** [fmtOptions_spec] at work on the order in which [map_to_list] lists
    the example options. *)
Lemma fmtOptions_spec_witness :
  fmtOptions (mock_client false (scripted [])) example_options
    (map_to_list example_options) =
  concat_strings (map option_entry (map_to_list example_options)) /\
  count_substring "&a=1+2"
    (fmtOptions (mock_client false (scripted [])) example_options
       (map_to_list example_options)) = 1%nat.
Proof.
  split.
  - refine (proj1 (fmtOptions_spec (mock_client false (scripted []))) _ _ _).
    unfold iteration_order. reflexivity.
  - refine (proj1 (proj2 (proj2 (fmtOptions_spec (mock_client false (scripted [])))
                                  (map_to_list example_options) _))).
    unfold iteration_order. reflexivity.
Defined.

(** C4 as stated fails on its example: in neither order does the result
    hold [&a=1%202]; the space of "1 2" is escaped as a plus sign. *)
Lemma fmtOptions_spec_counterexample :
  iteration_order example_options [("a", "1 2"); ("b", "x")] /\
  iteration_order example_options [("b", "x"); ("a", "1 2")] /\
  fmtOptions (mock_client false (scripted [])) example_options
    [("a", "1 2"); ("b", "x")] = "&a=1+2&b=x" /\
  fmtOptions (mock_client false (scripted [])) example_options
    [("b", "x"); ("a", "1 2")] = "&b=x&a=1+2" /\
  count_substring "&a=1%202" "&a=1+2&b=x" = 0%nat /\
  count_substring "&a=1%202" "&b=x&a=1+2" = 0%nat.
Proof.
  unfold iteration_order.
  change (map_to_list example_options) with [("a", "1 2"); ("b", "x")].
  split; [reflexivity|]. split; [apply perm_swap|]. repeat split.
Qed.

(* ===================================================================== *)
(** * Further properties of the pipeline *)
(* ===================================================================== *)

Section TransportErrors.
Context {RB : RequestBuilder} {UE : Unmarshaler Error}.
Context {T : Type} {UT : Unmarshaler T} {B : Type} {MB : Marshaler B}.

(** X1. A transport error is returned at once and never retried,
    whatever the auto-retry flag: [get] returns the transport's error
    as it is, [request] a new error with the same text; the call made
    that one round trip and deferred no close. *)
Theorem transport_error_not_retried (c : Client) (n : nat) (url : string)
    (body : B) (method : string) (data : T) (msg : string) :
  url <> EmptyString ->
  NewRequest_error "GET" url = None ->
  NewRequest_error method url = None ->
  let c' := default_timeout c in
  let t := net_http.Timeout (http c') in
  let greq := get_req url in
  let rreq := request_req method url (json_Encode body) in
  (net_http.Do (http c') n greq = net_http.RoundTripErr msg ->
   forall fuel,
     get (S fuel) c n url data =
     Done {| out_client := c'; out_data := data;
             out_err := Some (error_transport msg);
             out_sent := S n; out_events := [EvSend n t greq] |}) /\
  (net_http.Do (http c') n rreq = net_http.RoundTripErr msg ->
   forall fuel,
     request (S fuel) c n url body method data =
     Done {| out_client := c'; out_data := data;
             out_err := Some (errors_New msg);
             out_sent := S n; out_events := [EvSend n t rreq] |}).
Proof.
  intros Hurl Hget Hreq c' t greq rreq. split; intros Hdo fuel.
  - rewrite get_unfold by assumption.
    rewrite (for_loop_return fuel _ c' greq n [] data (Some (error_transport msg))).
    + unfold deferred_after. fold c' greq. rewrite Hdo. reflexivity.
    + fold c' greq. rewrite Hdo. reflexivity.
  - rewrite request_unfold by assumption.
    rewrite (for_loop_return fuel _ c' rreq n [] data (Some (errors_New msg))).
    + unfold deferred_after. fold c' rreq. rewrite Hdo. reflexivity.
    + fold c' rreq. rewrite Hdo. reflexivity.
Qed.

End TransportErrors.

(** [transport_error_not_retried] at work: with auto-retry on and no
    answer scripted, [get] returns the connection error after one round
    trip. *)
Lemma transport_error_not_retried_witness :
  exists o,
    get (RB := accept_all) (UE := Error_Decode) (UT := Response_Decode) 4
      (mock_client true (scripted [])) 0 movie_url Response_zero = Done o /\
    out_err o = Some (error_transport "connection refused") /\
    count_sends (out_events o) = 1%nat.
Proof.
  eexists. split.
  - refine (proj1 (transport_error_not_retried (RB := accept_all) (UE := Error_Decode)
              (UT := Response_Decode) (MB := nil_Marshal)
              (mock_client true (scripted [])) 0 movie_url tt "POST" Response_zero
              "connection refused" _ _ _) _ 3%nat);
      (discriminate || reflexivity).
  - split; reflexivity.
Defined.

Section EmptySuccessBody.
Context {RB : RequestBuilder} {UE : Unmarshaler Error}.


End EmptySuccessBody.


(** The setters change the field they name and nothing else;
    [SetClientAutoRetry] and [SetClientWithContext] can be repeated
    without effect, and there is no call that clears them. *)
Theorem setters_frame (c : Client) (h : net_http.Client) :
  (autoRetry (SetClientAutoRetry c) = true /\
   SetClientAutoRetry (SetClientAutoRetry c) = SetClientAutoRetry c /\
   apiKey (SetClientAutoRetry c) = apiKey c /\
   sessionID (SetClientAutoRetry c) = sessionID c /\
   withContext (SetClientAutoRetry c) = withContext c /\
   http (SetClientAutoRetry c) = http c) /\
  (withContext (SetClientWithContext c) = true /\
   SetClientWithContext (SetClientWithContext c) = SetClientWithContext c /\
   apiKey (SetClientWithContext c) = apiKey c /\
   sessionID (SetClientWithContext c) = sessionID c /\
   autoRetry (SetClientWithContext c) = autoRetry c /\
   http (SetClientWithContext c) = http c) /\
  (http (SetClientConfig c h) = h /\
   apiKey (SetClientConfig c h) = apiKey c /\
   sessionID (SetClientConfig c h) = sessionID c /\
   autoRetry (SetClientConfig c h) = autoRetry c /\
   withContext (SetClientConfig c h) = withContext c).
Proof. repeat split. Qed.

Section Constructor.
Context {NW : Network}.

(** [Init] with a key that is not empty returns a handle that holds
    the key, no session id, both flags off and no timeout set. *)
Theorem Init_defaults (key : string) :
  key <> EmptyString ->
  exists c,
    Init key = inl c /\
    apiKey c = key /\ sessionID c = EmptyString /\
    autoRetry c = false /\ withContext c = false /\
    net_http.Timeout (http c) = 0 /\
    net_http.Transport (http c) = DefaultTransport.
Proof.
  intros Hkey. destruct key as [|a key]; [contradiction|].
  eexists. split; [reflexivity|]. repeat split.
Qed.

End Constructor.

(** [Init_defaults] at work. *)
Lemma Init_defaults_witness :
  exists c,
    Init (NW := no_network) "k" = inl c /\ apiKey c = "k" /\ autoRetry c = false.
Proof.
  destruct (Init_defaults (NW := no_network) "k" ltac:(discriminate))
    as (c & Hinit & Hkey & _ & Hauto & _).
  exists c. repeat split; assumption.
Defined.

(* ===================================================================== *)
(** * The trace of a call *)
(* ===================================================================== *)

Section Trace.
Context {T : Type}.
Implicit Types (iter : net_http.RoundTrip -> Step T) (c : Client).
Implicit Types (req : net_http.Request) (defs : list nat).

(** What a loop that sleeps as the retry policy says has done, whether
    it returned or not. [defs] is what was deferred before. *)
Lemma for_loop_trace iter c req :
  (forall rt d, iter rt = Continue d ->
                d = sleep_of rt /\ exists res, rt = net_http.RoundTripOk res) ->
  forall fuel n defs,
    match for_loop fuel iter c req n defs with
    | Done o =>
        exists N, (N < fuel)%nat /\ out_sent o = S (n + N) /\
                  iter (net_http.Do (http c) (n + N) req) =
                  Return (out_data o) (out_err o) /\
                  out_events o =
                  retry_events c req n N ++
                  EvSend (n + N) (net_http.Timeout (http c)) req
                  :: map EvClose (deferred_after c req (n + N) (rev (seq n N) ++ defs))
    | OutOfFuel evs => evs = retry_events c req n fuel
    end.
Proof.
  intros Hpol. induction fuel as [|fuel IH]; intros n defs; [reflexivity|].
  destruct (iter (net_http.Do (http c) n req)) as [d|data err] eqn:Hit.
  - rewrite (for_loop_continue _ _ _ _ _ _ _ Hit).
    destruct (Hpol _ _ Hit) as [Hd [res Hres]].
    assert (deferred_after c req n defs = n :: defs) as Hdef
      by (unfold deferred_after; rewrite Hres; reflexivity).
    rewrite Hdef. specialize (IH (S n) (n :: defs)).
    destruct (for_loop fuel iter c req (S n) (n :: defs)) as [o|evs]; cbn [prepend].
    + destruct IH as (N & HN & Hsent & Hlast & Hevs).
      exists (S N). cbn [out_sent out_data out_err out_events].
      replace (n + S N)%nat with (S n + N)%nat by lia.
      split; [lia|]. split; [exact Hsent|]. split; [exact Hlast|].
      rewrite Hevs. cbn [retry_events seq rev]. rewrite Hd.
      rewrite <- (app_assoc (rev (seq (S n) N)) [n] defs). reflexivity.
    + rewrite IH. cbn [retry_events]. rewrite Hd. reflexivity.
  - rewrite (for_loop_return _ _ _ _ _ _ _ _ Hit).
    exists 0%nat. cbn [out_sent out_data out_err out_events].
    rewrite Nat.add_0_r. split; [lia|]. split; [reflexivity|]. split; [exact Hit|].
    reflexivity.
Qed.


(** The answer a loop returned on, and what it returned. *)
Lemma for_loop_last iter c req fuel n o :
  (forall rt d, iter rt = Continue d ->
                d = sleep_of rt /\ exists res, rt = net_http.RoundTripOk res) ->
  for_loop fuel iter c req n [] = Done o ->
  (n < out_sent o)%nat /\
  iter (net_http.Do (http c) (pred (out_sent o)) req) = Return (out_data o) (out_err o).
Proof.
  intros Hpol Hrun. pose proof (for_loop_trace iter c req Hpol fuel n []) as Htrace.
  rewrite Hrun in Htrace. destruct Htrace as (N & _ & Hsent & Hlast & _).
  rewrite Hsent. cbn [pred]. split; [lia|exact Hlast].
Qed.

Lemma closed_app (evs1 evs2 : list Event) : closed (evs1 ++ evs2) = closed evs1 ++ closed evs2.
Proof.
  induction evs1 as [|e evs1 IH]; [reflexivity|].
  destruct e; cbn [closed app]; rewrite IH; reflexivity.
Qed.

Lemma slept_app (evs1 evs2 : list Event) : slept (evs1 ++ evs2) = slept evs1 ++ slept evs2.
Proof.
  induction evs1 as [|e evs1 IH]; [reflexivity|].
  destruct e; cbn [slept app]; rewrite IH; reflexivity.
Qed.

Lemma closed_closes (l : list nat) : closed (map EvClose l) = l.
Proof. induction l as [|k l IH]; [reflexivity|]. cbn. rewrite IH. reflexivity. Qed.

Lemma slept_closes (l : list nat) : slept (map EvClose l) = [].
Proof. induction l as [|k l IH]; [reflexivity|exact IH]. Qed.

Lemma retry_events_closed c req N : forall n, closed (retry_events c req n N) = [].
Proof. induction N as [|N IH]; intros n; [reflexivity|]. cbn. apply IH. Qed.

Lemma retry_events_slept c req N : forall n,
  slept (retry_events c req n N) =
  map (fun k => sleep_of (net_http.Do (http c) k req)) (seq n N).
Proof.
  induction N as [|N IH]; intros n; [reflexivity|]. cbn. rewrite IH. reflexivity.
Qed.

Lemma retry_events_sends c req N : forall n, count_sends (retry_events c req n N) = N.
Proof.
  induction N as [|N IH]; intros n; [reflexivity|].
  cbn [retry_events]. rewrite count_sends_send.
  change (EvSleep ?d :: ?l) with ([EvSleep d] ++ l).
  rewrite count_sends_app, IH. reflexivity.
Qed.

Lemma for_loop_shape iter c req fuel n :
  (forall rt d, iter rt = Continue d ->
                d = sleep_of rt /\ exists res, rt = net_http.RoundTripOk res) ->
  run_shape c req n fuel (for_loop fuel iter c req n []).
Proof.
  intros Hpol. pose proof (for_loop_trace iter c req Hpol fuel n []) as Htrace.
  unfold run_shape. cbv zeta.
  destruct (for_loop fuel iter c req n []) as [o|evs].
  - destruct Htrace as (N & HN & Hsent & _ & Hevs).
    rewrite app_nil_r in Hevs.
    exists N. split; [exact HN|]. split; [exact Hsent|].
    split; [exact Hevs|]. rewrite Hevs. split.
    + rewrite slept_app, retry_events_slept. cbn [slept].
      rewrite slept_closes, app_nil_r. reflexivity.
    + rewrite closed_app, retry_events_closed. cbn [closed app].
      apply closed_closes.
  - subst evs. split; [reflexivity|]. split; [apply retry_events_slept|].
    split; [apply retry_events_closed|apply retry_events_sends].
Qed.

End Trace.

Section CallFacts.
Context {RB : RequestBuilder} {UE : Unmarshaler Error}.
Context {T : Type} {UT : Unmarshaler T}.
Implicit Types (c : Client) (data : T) (res : net_http.Response).

(** Both loops sleep what [retryDuration] says, and only after a
    response. *)
Lemma get_iter_policy c data rt d :
  get_iter c data rt = Continue d ->
  d = sleep_of rt /\ exists res, rt = net_http.RoundTripOk res.
Proof.
  destruct rt as [msg|res]; cbn [get_iter]; [discriminate|].
  destruct (_ && _); [intros Heq; injection Heq as <-; eauto|].
  destruct (_ =? _); [discriminate|].
  destruct (negb _); [discriminate|].
  destruct (json_Decode _ _) as [d' [e|]]; discriminate.
Qed.

Lemma request_iter_policy c data rt d :
  request_iter c data rt = Continue d ->
  d = sleep_of rt /\ exists res, rt = net_http.RoundTripOk res.
Proof.
  destruct rt as [msg|res]; cbn [request_iter]; [discriminate|].
  destruct (_ && _); [intros Heq; injection Heq as <-; eauto|].
  destruct (_ || _); [discriminate|].
  destruct (json_Decode _ _) as [d' [e|]]; discriminate.
Qed.

(** What [get] returns on an answer, when it returns. *)
Lemma get_iter_Return c data rt d e :
  get_iter c data rt = Return d e ->
  match rt with
  | net_http.RoundTripErr msg => d = data /\ e = Some (error_transport msg)
  | net_http.RoundTripOk res =>
      (net_http.StatusCode res = 204 /\ d = data /\ e = None) \/
      (net_http.StatusCode res <> 204 /\ net_http.StatusCode res <> 200 /\
       d = data /\ e = Some (decodeError c res)) \/
      (net_http.StatusCode res = 200 /\
       (d, e) = decode_result (net_http.ResponseBody res) data)
  end.
Proof.
  destruct rt as [msg|res]; cbn [get_iter].
  - intros Heq. injection Heq as <- <-. auto.
  - unfold net_http.StatusTooManyRequests, net_http.StatusNoContent, net_http.StatusOK.
    destruct (_ && _); [discriminate|].
    destruct (net_http.StatusCode res =? 204) eqn:H204.
    { intros Heq. injection Heq as <- <-. Zbool. left. repeat split. assumption. }
    destruct (net_http.StatusCode res =? 200) eqn:H200; cbn [negb].
    + intros Heq. right. right. Zbool. split; [assumption|].
      unfold decode_result.
      destruct (json_Decode _ _) as [d' [err|]]; injection Heq as <- <-; reflexivity.
    + intros Heq. injection Heq as <- <-. Zbool. right. left. repeat split; assumption.
Qed.

(** What [request] returns on an answer, when it returns. *)
Lemma request_iter_Return c data rt d e :
  request_iter c data rt = Return d e ->
  match rt with
  | net_http.RoundTripErr msg => d = data /\ e = Some (errors_New msg)
  | net_http.RoundTripOk res =>
      ((300 <= net_http.StatusCode res \/ net_http.StatusCode res < 200 \/
        net_http.StatusCode res = 204) /\
       d = data /\ e = Some (decodeError c res)) \/
      (200 <= net_http.StatusCode res < 300 /\ net_http.StatusCode res <> 204 /\
       (autoRetry c = true -> net_http.StatusCode res <> 202) /\
       (d, e) = decode_result (net_http.ResponseBody res) data)
  end.
Proof.
  destruct rt as [msg|res]; cbn [request_iter].
  - intros Heq. injection Heq as <- <-. auto.
  - unfold shouldRetry, net_http.StatusTooManyRequests, net_http.StatusAccepted,
      net_http.StatusMultipleChoices, net_http.StatusOK, net_http.StatusNoContent.
    destruct (autoRetry c && _) eqn:Hretry; [discriminate|].
    destruct ((300 <=? net_http.StatusCode res) || (net_http.StatusCode res <? 200) ||
              (net_http.StatusCode res =? 204)) eqn:Hrange.
    + intros Heq. injection Heq as <- <-. left. split; [|split; reflexivity].
      apply orb_true_iff in Hrange as [Hrange|Hrange];
        [apply orb_true_iff in Hrange as [Hrange|Hrange]|].
      * left. apply Z.leb_le. exact Hrange.
      * right. left. apply Z.ltb_lt. exact Hrange.
      * right. right. apply Z.eqb_eq. exact Hrange.
    + intros Heq. right.
      apply orb_false_iff in Hrange as [Hrange H204].
      apply orb_false_iff in Hrange as [H300 H200].
      apply Z.leb_gt in H300. apply Z.ltb_ge in H200. apply Z.eqb_neq in H204.
      split; [lia|]. split; [assumption|]. split.
      * intros Hauto Hs. rewrite Hauto, Hs in Hretry. discriminate.
      * unfold decode_result.
        destruct (json_Decode _ _) as [d' [err|]]; injection Heq as <- <-; reflexivity.
Qed.

Lemma decode_result_ok (body : net_http.Body) data d :
  (d, None) = decode_result body data -> json_Decode body data = (d, None).
Proof.
  unfold decode_result. destruct (json_Decode body data) as [d' [err|]]; [discriminate|].
  intros Heq. injection Heq as ->. reflexivity.
Qed.

Lemma decode_result_fst (body : net_http.Body) data :
  fst (decode_result body data) = fst (json_Decode body data).
Proof. unfold decode_result. destruct (json_Decode body data) as [d' [err|]]; reflexivity. Qed.


(** A loop does not look at the context flag of its handle. *)
Lemma for_loop_withContext (iter : net_http.RoundTrip -> Step T) c b req fuel :
  forall n defs,
    for_loop fuel iter (set_withContext c b) req n defs =
    with_client (fun c' => set_withContext c' b) (for_loop fuel iter c req n defs).
Proof.
  induction fuel as [|fuel IH]; intros n defs; [reflexivity|].
  cbn [for_loop].
  change (net_http.Do (http (set_withContext c b)) n req)
    with (net_http.Do (http c) n req).
  change (deferred_after (set_withContext c b) req n defs)
    with (deferred_after c req n defs).
  destruct (iter (net_http.Do (http c) n req)); [|reflexivity].
  rewrite IH.
  destruct (for_loop fuel iter c req (S n) (deferred_after c req n defs)); reflexivity.
Qed.

End CallFacts.

Section CallProperties.
Context {RB : RequestBuilder} {UE : Unmarshaler Error}.
Context {T : Type} {UT : Unmarshaler T} {B : Type} {MB : Marshaler B}.

(** X3. The whole trace of a call that reaches its loop. If the call
    returned, it did so after some number [N] of retried round trips:
    its events are [N] times a send followed by a sleep of
    [retryDuration] of the response just received, then the last send,
    then the deferred closes; every response is closed exactly once,
    the last one first, and none before the call returns. If the call
    is still in its loop it has closed no response. *)
Theorem call_trace (fuel : nat) (c : Client) (n : nat) (url : string) (body : B)
    (method : string) (data : T) :
  url <> EmptyString ->
  NewRequest_error "GET" url = None ->
  NewRequest_error method url = None ->
  run_shape (default_timeout c) (get_req url) n fuel (get fuel c n url data) /\
  run_shape (default_timeout c) (request_req method url (json_Encode body)) n fuel
    (request fuel c n url body method data).
Proof.
  intros Hurl Hget Hreq. split.
  - rewrite get_unfold by assumption. apply for_loop_shape.
    intros rt d. apply get_iter_policy.
  - rewrite request_unfold by assumption. apply for_loop_shape.
    intros rt d. apply request_iter_policy.
Qed.

(** X4. With auto-retry off a call never sleeps and never sends twice:
    given one iteration it has returned, after at most one round
    trip. *)
Theorem no_retry_single_send (c : Client) (n : nat) (url : string) (body : B)
    (method : string) (data : T) :
  autoRetry c = false ->
  forall fuel,
    (exists o, get (S fuel) c n url data = Done o /\
               (count_sends (out_events o) <= 1)%nat /\
               slept (out_events o) = [] /\ (out_sent o <= S n)%nat) /\
    (exists o, request (S fuel) c n url body method data = Done o /\
               (count_sends (out_events o) <= 1)%nat /\
               slept (out_events o) = [] /\ (out_sent o <= S n)%nat).
Proof.
  intros Hauto fuel.
  assert (autoRetry (default_timeout c) = false) as Hauto'
    by (rewrite default_timeout_autoRetry; exact Hauto).
  assert (forall (iter : net_http.RoundTrip -> Step T) req,
            (forall rt, is_Continue (iter rt) = false) ->
            exists o, for_loop (S fuel) iter (default_timeout c) req n [] = Done o /\
                      (count_sends (out_events o) <= 1)%nat /\
                      slept (out_events o) = [] /\ (out_sent o <= S n)%nat) as Hloop.
  { intros iter req Hstop.
    destruct (is_Continue_false _ (Hstop (net_http.Do (http (default_timeout c)) n req)))
      as (d & e & Hret).
    rewrite (for_loop_return _ _ _ _ _ _ _ _ Hret).
    eexists. split; [reflexivity|]. cbn [out_events out_sent].
    rewrite count_sends_send, count_sends_closes. cbn [slept].
    rewrite slept_closes. repeat split; lia. }
  assert (forall e, exists o : Outcome T,
            early (default_timeout c) data n e = Done o /\
            (count_sends (out_events o) <= 1)%nat /\
            slept (out_events o) = [] /\ (out_sent o <= S n)%nat) as Hearly.
  { intros e. eexists. split; [reflexivity|]. cbn. repeat split; lia. }
  split.
  - destruct url as [|a url].
    { rewrite get_empty_url. eexists. split; [reflexivity|]. cbn. repeat split; lia. }
    destruct (NewRequest_error "GET" (String a url)) as [e|] eqn:Hreq.
    + rewrite (get_build_error _ _ _ _ _ e) by (discriminate || assumption). apply Hearly.
    + rewrite get_unfold by (discriminate || assumption). apply Hloop.
      intros rt. rewrite get_iter_retries. unfold get_retries.
      destruct rt; [reflexivity|]. rewrite Hauto'. apply andb_false_r.
  - destruct url as [|a url].
    { rewrite request_empty_url. eexists. split; [reflexivity|]. cbn. repeat split; lia. }
    destruct (NewRequest_error method (String a url)) as [e|] eqn:Hreq.
    + rewrite (request_build_error _ _ _ _ _ _ _ e) by (discriminate || assumption).
      apply Hearly.
    + rewrite request_unfold by (discriminate || assumption). apply Hloop.
      intros rt. rewrite request_iter_retries. unfold request_retries.
      destruct rt; [reflexivity|]. rewrite Hauto'. reflexivity.
Qed.

(** X5. A URL that [http.NewRequest] rejects makes the call return the
    wrapped error without a round trip and with the target untouched;
    unlike a call with an empty URL, it has already applied the timeout
    default to the handle. *)
Theorem build_error_no_send (fuel : nat) (c : Client) (n : nat) (url : string)
    (body : B) (method : string) (data : T) (e : string) :
  url <> EmptyString ->
  (NewRequest_error "GET" url = Some e ->
   get fuel c n url data =
   Done {| out_client := default_timeout c; out_data := data;
           out_err := Some (errors_New ("could not fetch the url: " +:+ e));
           out_sent := n; out_events := [] |}) /\
  (NewRequest_error method url = Some e ->
   request fuel c n url body method data =
   Done {| out_client := default_timeout c; out_data := data;
           out_err := Some (errors_New ("could not fetch the url: " +:+ e));
           out_sent := n; out_events := [] |}) /\
  (net_http.Timeout (http c) = 0 ->
   net_http.Timeout (http (default_timeout c)) = 10 * time_Second).
Proof.
  intros Hurl. split; [|split].
  - intros Hreq. apply get_build_error; assumption.
  - intros Hreq. apply request_build_error; assumption.
  - intros Ht. unfold default_timeout. rewrite Ht. reflexivity.
Qed.

(** X6. The context flag changes nothing a call does: both
    [http.NewRequest] and [http.NewRequestWithContext] are given the
    background context, so a call on a handle with the flag set to [b]
    makes the same round trips and returns the same target and error as
    on the handle as it was; the handle it leaves differs by the flag
    alone. *)
Theorem withContext_changes_nothing (fuel : nat) (c : Client) (b : bool) (n : nat)
    (url : string) (body : B) (method : string) (data : T) :
  get fuel (set_withContext c b) n url data =
  with_client (fun c' => set_withContext c' b) (get fuel c n url data) /\
  request fuel (set_withContext c b) n url body method data =
  with_client (fun c' => set_withContext c' b) (request fuel c n url body method data).
Proof.
  assert (default_timeout (set_withContext c b) = set_withContext (default_timeout c) b)
    as Hdefault.
  { unfold default_timeout.
    change (net_http.Timeout (http (set_withContext c b)))
      with (net_http.Timeout (http c)).
    destruct (_ =? _); reflexivity. }
  split.
  - unfold get. destruct url as [|a url]; [reflexivity|].
    rewrite Hdefault. unfold NewRequestWithContext.
    change (withContext (set_withContext (default_timeout c) b)) with b.
    assert (forall r : net_http.Request + string,
              (if b then r else r) = (if withContext (default_timeout c) then r else r))
      as -> by (intros r; destruct b, (withContext (default_timeout c)); reflexivity).
    destruct (if withContext (default_timeout c)
              then NewRequest net_http.MethodGet (String a url) None
              else NewRequest net_http.MethodGet (String a url) None) as [req|err];
      [|reflexivity].
    rewrite for_loop_withContext. reflexivity.
  - unfold request. destruct url as [|a url]; [reflexivity|].
    rewrite Hdefault. unfold NewRequestWithContext.
    change (withContext (set_withContext (default_timeout c) b)) with b.
    assert (forall r : net_http.Request + string,
              (if b then r else r) = (if withContext (default_timeout c) then r else r))
      as -> by (intros r; destruct b, (withContext (default_timeout c)); reflexivity).
    destruct (if withContext (default_timeout c)
              then NewRequest method (String a url) (Some (json_Encode body))
              else NewRequest method (String a url) (Some (json_Encode body)))
      as [req|err]; [|reflexivity].
    rewrite for_loop_withContext. reflexivity.
Qed.

End CallProperties.

(** [call_trace] at work: a 429 and then a 200, for both executors. *)
Lemma call_trace_witness :
  let c := mock_client true (scripted (answers [busy_3s; fight_club])) in
  run_shape (default_timeout c) (get_req movie_url) 0 3
    (get (RB := accept_all) (UE := Error_Decode) (UT := Response_Decode) 3
       c 0 movie_url Response_zero) /\
  run_shape (default_timeout c) (request_req "POST" movie_url (json_Encode (MB := nil_Marshal) tt))
    0 3
    (request (RB := accept_all) (UE := Error_Decode) (UT := Response_Decode)
       (MB := nil_Marshal) 3 c 0 movie_url tt "POST" Response_zero).
Proof.
  refine (call_trace (RB := accept_all) (UE := Error_Decode) (UT := Response_Decode)
            (MB := nil_Marshal) 3
            (mock_client true (scripted (answers [busy_3s; fight_club])))
            0 movie_url tt "POST" Response_zero _ _ _);
    (discriminate || reflexivity).
Defined.

(** [no_retry_single_send] at work: a 429 with auto-retry off. *)
Lemma no_retry_single_send_witness :
  exists o,
    get (RB := accept_all) (UE := Error_Decode) (UT := Response_Decode) 1
      (mock_client false (scripted (answers [busy_3s]))) 0 movie_url Response_zero =
    Done o /\
    (count_sends (out_events o) <= 1)%nat /\
    slept (out_events o) = [] /\ (out_sent o <= 1)%nat.
Proof.
  exact (proj1 (no_retry_single_send (RB := accept_all) (UE := Error_Decode)
                  (UT := Response_Decode) (MB := nil_Marshal)
                  (mock_client false (scripted (answers [busy_3s])))
                  0 movie_url tt "POST" Response_zero eq_refl 0%nat)).
Defined.

(** [build_error_no_send] at work: a URL that starts with a colon. *)
Lemma build_error_no_send_witness :
  let c := mock_client true (scripted (answers [fight_club])) in
  get (RB := strict_builder) (UE := Error_Decode) (UT := Response_Decode) 2
    c 0 ":3/movie/550" Response_zero =
  Done {| out_client := default_timeout c; out_data := Response_zero;
          out_err := Some (errors_New
            ("could not fetch the url: parse " +:+ quoted ":3/movie/550" +:+
             ": missing protocol scheme"));
          out_sent := 0; out_events := [] |}.
Proof.
  refine (proj1 (build_error_no_send (RB := strict_builder) (UE := Error_Decode)
                   (UT := Response_Decode) (MB := nil_Marshal) 2
                   (mock_client true (scripted (answers [fight_club])))
                   0 ":3/movie/550" tt "POST" Response_zero
                   ("parse " +:+ quoted ":3/movie/550" +:+ ": missing protocol scheme")
                   _) _);
    (discriminate || reflexivity).
Defined.

Section Outcomes.
Context {RB : RequestBuilder} {UE : Unmarshaler Error}.
Context {T : Type} {UT : Unmarshaler T} {B : Type} {MB : Marshaler B}.

(** A call that returned no error reached its loop. *)
Lemma get_reached_loop fuel c n url (data : T) o :
  get fuel c n url data = Done o ->
  (out_data o = data /\ out_err o <> None) \/
  (url <> EmptyString /\
   for_loop fuel (get_iter (default_timeout c) data) (default_timeout c)
     (get_req url) n [] = Done o).
Proof.
  destruct url as [|a url].
  - rewrite get_empty_url. intros Ho. injection Ho as <-. left. split; [reflexivity|discriminate].
  - destruct (NewRequest_error "GET" (String a url)) as [e|] eqn:Hreq.
    + rewrite (get_build_error _ _ _ _ _ e) by (discriminate || assumption).
      intros Ho. injection Ho as <-. left. split; [reflexivity|discriminate].
    + rewrite get_unfold by (discriminate || assumption).
      intros Ho. right. split; [discriminate|exact Ho].
Qed.

Lemma request_reached_loop fuel c n url (body : B) method (data : T) o :
  request fuel c n url body method data = Done o ->
  (out_data o = data /\ out_err o <> None) \/
  (url <> EmptyString /\
   for_loop fuel (request_iter (default_timeout c) data) (default_timeout c)
     (request_req method url (json_Encode body)) n [] = Done o).
Proof.
  destruct url as [|a url].
  - rewrite request_empty_url. intros Ho. injection Ho as <-.
    left. split; [reflexivity|discriminate].
  - destruct (NewRequest_error method (String a url)) as [e|] eqn:Hreq.
    + rewrite (request_build_error _ _ _ _ _ _ _ e) by (discriminate || assumption).
      intros Ho. injection Ho as <-. left. split; [reflexivity|discriminate].
    + rewrite request_unfold by (discriminate || assumption).
      intros Ho. right. split; [discriminate|exact Ho].
Qed.

(** X7. What a [get] that returned says about the answer it returned
    on, however many retries came before. It returns no error only on a
    204, with the target untouched, or on a 200 whose body decoded into
    the target. And it writes the target only from the body of a 200:
    on every other path (usage error, transport error, any other
    status) the target is as it was. *)
Theorem get_outcome (fuel : nat) (c : Client) (n : nat) (url : string) (data : T)
    (o : Outcome T) :
  get fuel c n url data = Done o ->
  let last := net_http.Do (http (default_timeout c)) (pred (out_sent o)) (get_req url) in
  (out_err o = None ->
   url <> EmptyString /\ (n < out_sent o)%nat /\
   exists res, last = net_http.RoundTripOk res /\
     (net_http.StatusCode res = 204 /\ out_data o = data \/
      net_http.StatusCode res = 200 /\
      json_Decode (net_http.ResponseBody res) data = (out_data o, None))) /\
  (out_data o = data \/
   exists res, last = net_http.RoundTripOk res /\ net_http.StatusCode res = 200 /\
               out_data o = fst (json_Decode (net_http.ResponseBody res) data)).
Proof.
  intros Hrun last.
  destruct (get_reached_loop _ _ _ _ _ _ Hrun) as [[Hdata Herr]|[Hurl Hloop]].
  { split; [intros Hnone; contradiction|left; exact Hdata]. }
  destruct (for_loop_last _ _ _ _ _ _
              (fun rt d => get_iter_policy (default_timeout c) data rt d) Hloop)
    as [Hsent Hlast].
  apply get_iter_Return in Hlast. fold last in Hlast.
  destruct last as [msg|res].
  - destruct Hlast as [Hd He]. split; [|left; exact Hd].
    intros Hnone. rewrite He in Hnone. discriminate.
  - destruct Hlast as [(Hs & Hd & He)|[(H204 & H200 & Hd & He)|(Hs & Hdec)]].
    + split; [|left; exact Hd]. intros _. split; [exact Hurl|]. split; [exact Hsent|].
      exists res. split; [reflexivity|]. left. split; assumption.
    + split; [|left; exact Hd]. intros Hnone. rewrite He in Hnone. discriminate.
    + split.
      * intros Hnone. split; [exact Hurl|]. split; [exact Hsent|].
        exists res. split; [reflexivity|]. right. split; [exact Hs|].
        apply decode_result_ok. rewrite <- Hdec, Hnone. reflexivity.
      * right. exists res. split; [reflexivity|]. split; [exact Hs|].
        rewrite <- decode_result_fst, <- Hdec. reflexivity.
Qed.

(** X8. The same for [request], whose success range is wider: it
    returns no error only on a status from 200 to 299 other than 204
    (and other than 202 when auto-retry is on) whose body decoded into
    the target, and it writes the target only from the body of such a
    response. *)
Theorem request_outcome (fuel : nat) (c : Client) (n : nat) (url : string)
    (body : B) (method : string) (data : T) (o : Outcome T) :
  request fuel c n url body method data = Done o ->
  let last := net_http.Do (http (default_timeout c)) (pred (out_sent o))
                (request_req method url (json_Encode body)) in
  (out_err o = None ->
   url <> EmptyString /\ (n < out_sent o)%nat /\
   exists res, last = net_http.RoundTripOk res /\
     200 <= net_http.StatusCode res < 300 /\ net_http.StatusCode res <> 204 /\
     (autoRetry c = true -> net_http.StatusCode res <> 202) /\
     json_Decode (net_http.ResponseBody res) data = (out_data o, None)) /\
  (out_data o = data \/
   exists res, last = net_http.RoundTripOk res /\
               200 <= net_http.StatusCode res < 300 /\ net_http.StatusCode res <> 204 /\
               out_data o = fst (json_Decode (net_http.ResponseBody res) data)).
Proof.
  intros Hrun last.
  destruct (request_reached_loop _ _ _ _ _ _ _ _ Hrun) as [[Hdata Herr]|[Hurl Hloop]].
  { split; [intros Hnone; contradiction|left; exact Hdata]. }
  destruct (for_loop_last _ _ _ _ _ _
              (fun rt d => request_iter_policy (default_timeout c) data rt d) Hloop)
    as [Hsent Hlast].
  apply request_iter_Return in Hlast. fold last in Hlast.
  destruct last as [msg|res].
  - destruct Hlast as [Hd He]. split; [|left; exact Hd].
    intros Hnone. rewrite He in Hnone. discriminate.
  - destruct Hlast as [(Hs & Hd & He)|(Hs & H204 & H202 & Hdec)].
    + split; [|left; exact Hd]. intros Hnone. rewrite He in Hnone. discriminate.
    + rewrite default_timeout_autoRetry in H202. split.
      * intros Hnone. split; [exact Hurl|]. split; [exact Hsent|].
        exists res. split; [reflexivity|]. repeat (split; [assumption|]).
        apply decode_result_ok. rewrite <- Hdec, Hnone. reflexivity.
      * right. exists res. split; [reflexivity|]. repeat (split; [assumption|]).
        rewrite <- decode_result_fst, <- Hdec. reflexivity.
Qed.

(** X9. The executors disagree on the 2xx statuses other than 200 and
    204 (201 Created, 203, ...): answered by such a status that it does
    not retry, [get] returns the error of [decodeError] and leaves the
    target, while [request] decodes the body into the target. *)
Theorem success_ranges_differ (c : Client) (n : nat) (url : string) (body : B)
    (method : string) (data : T) (res : net_http.Response) :
  url <> EmptyString ->
  NewRequest_error "GET" url = None ->
  NewRequest_error method url = None ->
  200 < net_http.StatusCode res < 300 ->
  net_http.StatusCode res <> 204 ->
  (net_http.StatusCode res = 202 -> autoRetry c = false) ->
  let c' := default_timeout c in
  let greq := get_req url in
  let rreq := request_req method url (json_Encode body) in
  (net_http.Do (http c') n greq = net_http.RoundTripOk res ->
   forall fuel,
     get (S fuel) c n url data =
     one_round_trip c' greq n data (Some (decodeError c' res))) /\
  (net_http.Do (http c') n rreq = net_http.RoundTripOk res ->
   forall fuel,
     request (S fuel) c n url body method data =
     one_round_trip c' rreq n
       (fst (decode_result (net_http.ResponseBody res) data))
       (snd (decode_result (net_http.ResponseBody res) data))).
Proof.
  intros Hurl Hget Hreq Hrange H204 H202 c' greq rreq. split; intros Hdo fuel.
  - rewrite get_unfold by assumption.
    apply (for_loop_one _ _ _ _ _ res); [exact Hdo|].
    apply get_iter_error; [lia|lia|intros; lia].
  - rewrite request_unfold by assumption.
    apply (for_loop_one _ _ _ _ _ res); [exact Hdo|].
    apply request_iter_success; [lia|lia|].
    unfold c'. rewrite default_timeout_autoRetry. exact H202.
Qed.


End Outcomes.

(** [get_outcome] at work: a call that returned no error after a retry
    ended on a round trip, and for a URL that is not empty. *)
Lemma get_outcome_witness :
  exists o,
    get (RB := accept_all) (UE := Error_Decode) (UT := Response_Decode) 2
      (mock_client true (scripted (answers [busy_3s; fight_club])))
      0 movie_url Response_zero = Done o /\
    out_err o = None /\ movie_url <> EmptyString /\ (0 < out_sent o)%nat.
Proof.
  eexists.
  match goal with
  | |- ?run = Done ?o /\ _ => assert (run = Done o) as Hrun by (vm_compute; reflexivity)
  end.
  split; [exact Hrun|]. split; [reflexivity|].
  destruct (get_outcome (RB := accept_all) (UE := Error_Decode) (UT := Response_Decode) 2
              (mock_client true (scripted (answers [busy_3s; fight_club])))
              0 movie_url Response_zero _ Hrun) as [Hok _].
  destruct (Hok eq_refl) as (Hurl & Hsent & _). split; assumption.
Defined.

(** [request_outcome] at work: a 202 with auto-retry off. *)
Lemma request_outcome_witness :
  exists o,
    request (RB := accept_all) (UE := Error_Decode) (UT := Response_Decode)
      (MB := nil_Marshal) 1
      (mock_client false (scripted (answers [accepted_queued])))
      0 movie_url tt "POST" Response_zero = Done o /\
    out_err o = None /\ movie_url <> EmptyString /\ (0 < out_sent o)%nat.
Proof.
  eexists.
  match goal with
  | |- ?run = Done ?o /\ _ => assert (run = Done o) as Hrun by (vm_compute; reflexivity)
  end.
  split; [exact Hrun|]. split; [reflexivity|].
  destruct (request_outcome (RB := accept_all) (UE := Error_Decode)
              (UT := Response_Decode) (MB := nil_Marshal) 1
              (mock_client false (scripted (answers [accepted_queued])))
              0 movie_url tt "POST" Response_zero _ Hrun) as [Hok _].
  destruct (Hok eq_refl) as (Hurl & Hsent & _). split; assumption.
Defined.

(** [success_ranges_differ] at work: a 201 Created. *)
Lemma success_ranges_differ_witness :
  let created := mock_response 201 [] (response_json 12 "created") in
  let c := mock_client true (scripted (answers [created])) in
  get (RB := accept_all) (UE := Error_Decode) (UT := Response_Decode) 1
    c 0 movie_url Response_zero =
  one_round_trip (default_timeout c) (get_req movie_url) 0 Response_zero
    (Some (decodeError (UE := Error_Decode) (default_timeout c) created)) /\
  request (RB := accept_all) (UE := Error_Decode) (UT := Response_Decode)
    (MB := nil_Marshal) 1 c 0 movie_url tt "POST" Response_zero =
  one_round_trip (default_timeout c)
    (request_req "POST" movie_url (json_Encode (MB := nil_Marshal) tt)) 0
    {| Response_StatusCode := 12; Response_StatusMessage := "created" |} None.
Proof.
  intros created c.
  assert (200 < net_http.StatusCode created < 300) as Hrange by (split; reflexivity).
  assert (net_http.StatusCode created <> 204) as H204 by discriminate.
  assert (net_http.StatusCode created = 202 -> autoRetry c = false) as H202
    by (intros H; discriminate H).
  destruct (success_ranges_differ (RB := accept_all) (UE := Error_Decode)
              (UT := Response_Decode) (MB := nil_Marshal)
              c 0 movie_url tt "POST" Response_zero created
              ltac:(discriminate) eq_refl eq_refl Hrange H204 H202) as [Hget Hrequest].
  split; [exact (Hget eq_refl 0%nat)|exact (Hrequest eq_refl 0%nat)].
Defined.


Section HandleInvariants.
Context {RB : RequestBuilder} {UE : Unmarshaler Error}.

Lemma handle_step_keeps (c c' : Client) :
  handle_step c c' ->
  apiKey c' = apiKey c /\
  (autoRetry c = true -> autoRetry c' = true) /\
  (withContext c = true -> withContext c' = true) /\
  (sessionID c <> EmptyString -> sessionID c' <> EmptyString).
Proof.
  intros Hstep. destruct Hstep as [c sid|c h|c|c|T UT fuel c n url data o Hrun
                                  |T UT B MB fuel c n url body method data o Hrun].
  - destruct sid as [|a sid]; cbn; [auto|]. repeat split; auto; discriminate.
  - cbn. auto.
  - cbn. auto.
  - cbn. auto.
  - rewrite (get_client _ _ _ _ _ _ Hrun).
    destruct (handle_after_frame c url) as (-> & -> & -> & -> & _). auto.
  - rewrite (request_client _ _ _ _ _ _ _ _ Hrun).
    destruct (handle_after_frame c url) as (-> & -> & -> & -> & _). auto.
Qed.

Lemma handle_steps_apiKey (c c' : Client) :
  handle_steps c c' -> apiKey c' = apiKey c.
Proof.
  intros Hsteps. induction Hsteps as [c|c1 c2 c3 Hsteps IH Hstep]; [reflexivity|].
  destruct (handle_step_keeps c2 c3 Hstep) as [Hkey _]. congruence.
Qed.

(** X11. Through any sequence of public operations on a handle (the
    four setters and calls of the two executors that returned) the API
    key stays what it was, the auto-retry and context flags stay set
    once they are set, and a session id that is not empty never becomes
    empty. *)
Theorem handle_invariants (c c' : Client) :
  handle_steps c c' ->
  apiKey c' = apiKey c /\
  (autoRetry c = true -> autoRetry c' = true) /\
  (withContext c = true -> withContext c' = true) /\
  (sessionID c <> EmptyString -> sessionID c' <> EmptyString).
Proof.
  intros Hsteps. induction Hsteps as [c|c1 c2 c3 Hsteps IH Hstep]; [auto|].
  destruct IH as (Hkey & Hauto & Hctx & Hsid).
  destruct (handle_step_keeps c2 c3 Hstep) as (Hkey' & Hauto' & Hctx' & Hsid').
  split; [congruence|]. auto.
Qed.

(** X12. A handle made by [Init] has an API key that is not empty, and
    keeps it through any sequence of public operations. *)
Theorem api_key_never_empty {NW : Network} (key : string) (c c' : Client) :
  Init key = inl c -> handle_steps c c' ->
  apiKey c' = key /\ key <> EmptyString.
Proof.
  intros Hinit Hsteps. rewrite (handle_steps_apiKey c c' Hsteps).
  destruct key as [|a key]; [discriminate|].
  injection Hinit as <-. split; [reflexivity|discriminate].
Qed.

End HandleInvariants.

(** [handle_invariants] at work: set auto-retry, make a call that is
    retried, replace the transport, set a session id. *)
Lemma handle_invariants_witness :
  exists c',
    handle_steps (RB := accept_all) (UE := Error_Decode)
      (mock_client false (scripted (answers [busy_3s; fight_club]))) c' /\
    apiKey c' = "k" /\ sessionID c' = "abc" /\
    net_http.Timeout (http c') = 0 /\
    (autoRetry (SetClientAutoRetry
                  (mock_client false (scripted (answers [busy_3s; fight_club])))) = true ->
     autoRetry c' = true).
Proof.
  pose (c0 := mock_client false (scripted (answers [busy_3s; fight_club]))).
  pose (c1 := SetClientAutoRetry c0).
  assert (exists o, get (RB := accept_all) (UE := Error_Decode) (UT := Response_Decode) 2
                      c1 0 movie_url Response_zero = Done o) as [o Hrun]
    by (eexists; vm_compute; reflexivity).
  pose (c3 := SetClientConfig (out_client o)
                {| net_http.Transport := scripted []; net_http.Timeout := 0 |}).
  pose (c4 := fst (SetSessionID c3 "abc")).
  assert (handle_steps (RB := accept_all) (UE := Error_Decode) c0 c1) as H1
    by exact (steps_more _ _ _ (steps_none c0) (step_SetClientAutoRetry c0)).
  assert (handle_steps (RB := accept_all) (UE := Error_Decode) c1 c4) as H4.
  { refine (steps_more _ _ _ (steps_more _ _ _ (steps_more _ _ _ (steps_none c1) _) _) _).
    - exact (step_get _ _ _ _ _ _ _ _ Hrun).
    - apply step_SetClientConfig.
    - apply step_SetSessionID. }
  assert (handle_steps (RB := accept_all) (UE := Error_Decode) c0 c4) as H04.
  { refine (steps_more _ _ _ (steps_more _ _ _ (steps_more _ _ _ H1 _) _) _).
    - exact (step_get _ _ _ _ _ _ _ _ Hrun).
    - apply step_SetClientConfig.
    - apply step_SetSessionID. }
  destruct (handle_invariants c0 c4 H04) as (Hkey & _).
  destruct (handle_invariants c1 c4 H4) as (_ & Hauto & _).
  exists c4. split; [exact H04|]. split; [exact Hkey|]. split; [reflexivity|].
  split; [reflexivity|exact Hauto].
Defined.

(** [api_key_never_empty] at work. *)
Lemma api_key_never_empty_witness :
  exists c c',
    Init (NW := no_network) "k" = inl c /\
    handle_steps (RB := accept_all) (UE := Error_Decode) c c' /\
    autoRetry c' = true /\ apiKey c' = "k".
Proof.
  eexists. eexists. split; [reflexivity|]. split.
  - exact (steps_more _ _ _ (steps_none _) (step_SetClientAutoRetry _)).
  - split; [reflexivity|].
    exact (proj1 (api_key_never_empty (RB := accept_all) (UE := Error_Decode)
                    (NW := no_network) "k" _ _ eq_refl
                    (steps_more _ _ _ (steps_none _) (step_SetClientAutoRetry _)))).
Defined.

Section RetryDurationRange.

Lemma retry_after_seconds_range (h : string) (s : Z) :
  retry_after_seconds h = Some s -> - 2 ^ 31 <= s < 2 ^ 31.
Proof.
  unfold retry_after_seconds. destruct (signed_decimal h) as [m|]; [|discriminate].
  destruct (_ && _) eqn:Hb; [|discriminate].
  intros Heq. injection Heq as <-. Zbool. lia.
Qed.

(** X13. Whatever the response, [retryDuration] is a whole number of
    seconds between -2^31 and 2^31 - 1: the multiplication by
    [time.Second] never overflows the 64 bits of a [time.Duration]. *)
Theorem retryDuration_range (resp : net_http.Response) :
  exists s : Z,
    - 2 ^ 31 <= s < 2 ^ 31 /\
    retryDuration resp = s * time_Second /\
    wrap_i64 (s * time_Second) = s * time_Second /\
    -2147483648000000000 <= retryDuration resp <= 2147483647000000000.
Proof.
  rewrite retryDuration_reading.
  destruct (retry_after_seconds _) as [s|] eqn:Hs.
  - pose proof (retry_after_seconds_range _ _ Hs) as Hrange.
    exists s. split; [exact Hrange|]. split; [reflexivity|].
    split; [apply (Duration_seconds s Hrange)|].
    change (2 ^ 31) with 2147483648 in Hrange. unfold time_Second. lia.
  - exists 5. repeat split; try reflexivity; unfold time_Second;
      change (2 ^ 31) with 2147483648; lia.
Qed.

End RetryDurationRange.

Section OptionStrings.

Lemma has_prefix_app (p r : string) : has_prefix p (p +:+ r) = true.
Proof.
  induction p as [|a p IH]; [reflexivity|].
  rewrite append_cons. cbn [has_prefix]. unfold ascii_eqb.
  rewrite Ascii.eqb_refl. exact IH.
Qed.

Lemma count_substring_here (p r : string) : (1 <= count_substring p (p +:+ r))%nat.
Proof.
  pose proof (has_prefix_app p r) as Hp.
  destruct (p +:+ r) as [|a s]; cbn [count_substring]; rewrite Hp; lia.
Qed.

Lemma count_substring_later (p a s : string) :
  (count_substring p s <= count_substring p (a +:+ s))%nat.
Proof.
  induction a as [|x a IH]; [reflexivity|].
  rewrite append_cons. cbn [count_substring]. lia.
Qed.

Lemma concat_strings_app (l1 l2 : list string) :
  concat_strings (l1 ++ l2) = concat_strings l1 +:+ concat_strings l2.
Proof.
  induction l1 as [|x l1 IH]; [reflexivity|].
  cbn [app concat_strings fold_right]. fold (concat_strings (l1 ++ l2)).
  fold (concat_strings l1). rewrite IH, append_assoc_string. reflexivity.
Qed.

Lemma count_char_app (a : ascii) (s t : string) :
  count_char a (s +:+ t) = (count_char a s + count_char a t)%nat.
Proof.
  induction s as [|x s IH]; [reflexivity|].
  rewrite append_cons. cbn [count_char]. rewrite IH. lia.
Qed.

Lemma count_char_absent (p : ascii -> bool) (a : ascii) (s : string) :
  all_chars p s = true -> p a = false -> count_char a s = 0%nat.
Proof.
  intros Hall Ha. induction s as [|x s IH]; [reflexivity|].
  cbn [all_chars] in Hall. apply andb_true_iff in Hall as [Hx Hall].
  cbn [count_char]. rewrite (IH Hall). unfold ascii_eqb.
  destruct (Ascii.eqb a x) eqn:Heq; [|reflexivity].
  apply Ascii.eqb_eq in Heq. subst x. congruence.
Qed.

Lemma all_chars_app (p : ascii -> bool) (s t : string) :
  all_chars p (s +:+ t) = all_chars p s && all_chars p t.
Proof.
  induction s as [|x s IH]; [reflexivity|].
  rewrite append_cons. cbn [all_chars]. rewrite IH, andb_assoc. reflexivity.
Qed.

(** [QueryEscape] works byte by byte. *)
Lemma QueryEscape_cons (c : ascii) (s : string) :
  net_url.QueryEscape (String c s) =
  net_url.QueryEscape (String c EmptyString) +:+ net_url.QueryEscape s.
Proof.
  cbn [net_url.QueryEscape].
  destruct (ascii_eqb c " "); [reflexivity|].
  destruct (net_url.shouldEscape c); reflexivity.
Qed.

Lemma QueryEscape_byte_safe (c : ascii) :
  all_chars query_safe (net_url.QueryEscape (String c EmptyString)) = true.
Proof. destruct c as [[] [] [] [] [] [] [] []]; vm_compute; reflexivity. Qed.

Lemma QueryEscape_safe (s : string) : all_chars query_safe (net_url.QueryEscape s) = true.
Proof.
  induction s as [|c s IH]; [reflexivity|].
  rewrite QueryEscape_cons, all_chars_app, QueryEscape_byte_safe, IH. reflexivity.
Qed.

Lemma count_amp_entries (order : list (string * string)) :
  count_char "&" (concat_strings (map option_entry order)) =
  (length order + list_sum (map (fun kv => count_char "&" (fst kv)) order))%nat.
Proof.
  induction order as [|[k v] order IH]; [reflexivity|].
  cbn [map concat_strings fold_right length list_sum fst].
  fold (concat_strings (map option_entry order)).
  rewrite count_char_app, IH. unfold option_entry. cbn [fst snd].
  rewrite append_cons, append_nil. cbn [count_char].
  change (ascii_eqb "&" "&") with true.
  rewrite count_char_app, append_cons, append_nil. cbn [count_char].
  change (ascii_eqb "&" "=") with false.
  rewrite (count_char_absent query_safe "&" _ (QueryEscape_safe v) eq_refl).
  fold (list_sum (map (fun kv : string * string => count_char "&" (fst kv)) order)).
  lia.
Qed.

Lemma fmtOptions_concat (c : Client) (urlOptions : gmap string string)
    (order : list (string * string)) :
  iteration_order urlOptions order ->
  fmtOptions c urlOptions order = concat_strings (map option_entry order).
Proof.
  intros Horder. unfold fmtOptions.
  destruct (0 <? Z.of_nat (size urlOptions)) eqn:Hsize.
  - apply fmtOptions_range_concat.
  - apply Z.ltb_ge in Hsize.
    assert (size urlOptions = 0%nat) as Hzero by lia.
    apply map_size_empty_iff in Hzero. subst urlOptions.
    unfold iteration_order in Horder. rewrite map_to_list_empty in Horder.
    apply Permutation_nil_r in Horder. subst order. reflexivity.
Qed.

(** X14. Whatever the order in which the map is visited, the result of
    [fmtOptions] holds every option of the map: for each key [k] with
    value [v], the text [&k=] followed by the query-escaped [v] occurs
    in it. For the empty map the result is empty. *)
Theorem fmtOptions_holds_every_option (c : Client) (urlOptions : gmap string string)
    (order : list (string * string)) :
  iteration_order urlOptions order ->
  (forall k v, urlOptions !! k = Some v ->
     (1 <= count_substring ("&" +:+ k +:+ "=" +:+ net_url.QueryEscape v)
             (fmtOptions c urlOptions order))%nat) /\
  (urlOptions = ∅ -> fmtOptions c urlOptions order = EmptyString).
Proof.
  intros Horder. split.
  - intros k v Hkv. rewrite (fmtOptions_concat c _ _ Horder).
    assert ((k, v) ∈ order) as Hin.
    { unfold iteration_order in Horder. rewrite Horder.
      apply elem_of_map_to_list. exact Hkv. }
    apply list_elem_of_split in Hin as (l1 & l2 & ->).
    rewrite map_app, concat_strings_app. cbn [map concat_strings fold_right].
    fold (concat_strings (map option_entry l2)).
    etransitivity; [|apply count_substring_later].
    apply (count_substring_here (option_entry (k, v))).
  - intros ->. reflexivity.
Qed.

(** X15. Values cannot break the option string, keys can. Every byte
    [url.QueryEscape] writes is a letter, a digit or one of [-_.~+%], so
    an escaped value holds no [&], [=], space, [#] or [?]. The keys are
    written as they are: the number of [&] in the result of [fmtOptions]
    is the number of options plus the number of [&] in the keys, and so
    exactly the number of options when no key holds one. *)
Theorem fmtOptions_separators (c : Client) (urlOptions : gmap string string)
    (order : list (string * string)) :
  iteration_order urlOptions order ->
  (forall v, all_chars query_safe (net_url.QueryEscape v) = true) /\
  (forall v a, existsb (ascii_eqb a) (list_ascii_of_string "&= #?") = true ->
               count_char a (net_url.QueryEscape v) = 0%nat) /\
  count_char "&" (fmtOptions c urlOptions order) =
  (size urlOptions + list_sum (map (fun kv => count_char "&" (fst kv)) order))%nat /\
  ((forall k v, urlOptions !! k = Some v -> count_char "&" k = 0%nat) ->
   count_char "&" (fmtOptions c urlOptions order) = size urlOptions).
Proof.
  intros Horder.
  assert (length order = size urlOptions) as Hlen.
  { unfold iteration_order in Horder. rewrite Horder. apply length_map_to_list. }
  assert (count_char "&" (fmtOptions c urlOptions order) =
          (size urlOptions + list_sum (map (fun kv => count_char "&" (fst kv)) order))%nat)
    as Hcount.
  { rewrite (fmtOptions_concat c _ _ Horder), count_amp_entries, Hlen. reflexivity. }
  split; [apply QueryEscape_safe|]. split; [|split; [exact Hcount|]].
  - intros v a Ha. apply (count_char_absent query_safe); [apply QueryEscape_safe|].
    cbn [list_ascii_of_string existsb] in Ha.
    repeat (apply orb_true_iff in Ha as [Ha|Ha];
            [apply Ascii.eqb_eq in Ha; subst a; reflexivity|]).
    discriminate.
  - intros Hkeys. rewrite Hcount.
    assert (list_sum (map (fun kv => count_char "&" (fst kv)) order) = 0%nat) as ->; [|lia].
    assert (forall kv, kv ∈ order -> count_char "&" (fst kv) = 0%nat) as Hall.
    { intros [k v] Hin. unfold iteration_order in Horder. rewrite Horder in Hin.
      apply elem_of_map_to_list in Hin. exact (Hkeys k v Hin). }
    clear -Hall. induction order as [|kv order IH]; [reflexivity|].
    cbn [map]. rewrite (Hall kv) by (left).
    change (list_sum (0%nat :: ?l)) with (0 + list_sum l)%nat.
    rewrite IH; [reflexivity|]. intros kv' Hin. apply Hall. right. exact Hin.
Qed.

End OptionStrings.

(** [fmtOptions_holds_every_option] at work: the example, visited with
    [b] first. *)
Lemma fmtOptions_holds_every_option_witness :
  (1 <= count_substring "&a=1+2"
          (fmtOptions (mock_client false (scripted [])) example_options
             [("b", "x"); ("a", "1 2")]))%nat.
Proof.
  assert (iteration_order example_options [("b", "x"); ("a", "1 2")]) as Horder.
  { unfold iteration_order.
    change (map_to_list example_options) with [("a", "1 2"); ("b", "x")].
    apply perm_swap. }
  exact (proj1 (fmtOptions_holds_every_option (mock_client false (scripted []))
                  example_options [("b", "x"); ("a", "1 2")] Horder)
           "a" "1 2" eq_refl).
Defined.

(** [fmtOptions_separators] at work: two options, two separators. *)
Lemma fmtOptions_separators_witness :
  count_char "&"
    (fmtOptions (mock_client false (scripted [])) example_options
       [("b", "x"); ("a", "1 2")]) = 2%nat.
Proof.
  assert (iteration_order example_options [("b", "x"); ("a", "1 2")]) as Horder.
  { unfold iteration_order.
    change (map_to_list example_options) with [("a", "1 2"); ("b", "x")].
    apply perm_swap. }
  exact (proj1 (proj2 (proj2 (fmtOptions_separators (mock_client false (scripted []))
                                example_options [("b", "x"); ("a", "1 2")] Horder)))).
Defined.

Section ErrorText.

Lemma all_digits_no_space (s : string) :
  all_digits s = true -> all_chars (fun c => negb (ascii_eqb c " ")) s = true.
Proof.
  induction s as [|c s IH]; [reflexivity|].
  cbn [all_digits all_chars]. intros H. apply andb_true_iff in H as [Hc Hs].
  rewrite (IH Hs), andb_true_r.
  unfold ascii_eqb. destruct (Ascii.eqb c " ") eqn:Heq; [|reflexivity].
  apply Ascii.eqb_eq in Heq. subst c. discriminate.
Qed.

Lemma itoa_no_space (n : Z) :
  all_chars (fun c => negb (ascii_eqb c " ")) (fmt.itoa n) = true.
Proof.
  unfold fmt.itoa. destruct (n <? 0) eqn:Hneg.
  - apply Z.ltb_lt in Hneg. cbn [all_chars].
    change (negb (ascii_eqb "-" " ")) with true.
    apply all_digits_no_space, utoa_spec. lia.
  - apply Z.ltb_ge in Hneg. apply all_digits_no_space, utoa_spec. lia.
Qed.

Lemma String_tail (c : ascii) (s t : string) : String c s = String c t -> s = t.
Proof. intros H. injection H as H. exact H. Qed.

(** A text is cut at its first space in one way only. *)
Lemma first_space_unique (a : string) : forall a' r r',
  all_chars (fun c => negb (ascii_eqb c " ")) a = true ->
  all_chars (fun c => negb (ascii_eqb c " ")) a' = true ->
  a +:+ String " " r = a' +:+ String " " r' -> a = a' /\ r = r'.
Proof.
  induction a as [|x a IH]; intros [|x' a'] r r' Ha Ha' Heq.
  - rewrite !append_nil in Heq. injection Heq as ->. split; reflexivity.
  - rewrite append_nil, append_cons in Heq. injection Heq as <- _.
    cbn [all_chars] in Ha'. discriminate.
  - rewrite append_nil, append_cons in Heq. injection Heq as -> _.
    cbn [all_chars] in Ha. discriminate.
  - rewrite !append_cons in Heq. injection Heq as -> Heq.
    cbn [all_chars] in Ha, Ha'.
    apply andb_true_iff in Ha as [_ Ha]. apply andb_true_iff in Ha' as [_ Ha'].
    destruct (IH a' r r' Ha Ha' Heq) as [-> ->]. split; reflexivity.
Qed.

(** X16. The text of an API error determines the error: two [Error]
    values print the same text only if they have the same status code,
    the same success flag and the same message. Nothing of the error is
    lost in [Error()], so a caller who only has the text can tell two
    failures apart. *)
Theorem Error_text_determines_error (e e' : Error) :
  Error_Error e = Error_Error e' -> e = e'.
Proof.
  destruct e as [m b n], e' as [m' b' n']. unfold Error_Error.
  cbn [StatusCode Success StatusMessage]. intros Heq.
  rewrite !append_cons, !append_nil in Heq.
  repeat (apply String_tail in Heq).
  apply first_space_unique in Heq as [Hn Heq]; try apply itoa_no_space.
  assert (n = n') as ->.
  { pose proof (signed_decimal_itoa n) as H1.
    rewrite Hn, signed_decimal_itoa in H1. congruence. }
  repeat (apply String_tail in Heq).
  destruct b, b'; cbn [fmt.btoa] in Heq; rewrite !append_cons, !append_nil in Heq;
    try discriminate; repeat (apply String_tail in Heq); subst; reflexivity.
Qed.

End ErrorText.

(** [Error_text_determines_error] at work: the error the reader of this
    file decodes from an envelope prints as the error written out, so it
    is that error. *)
Lemma Error_text_determines_error_witness :
  fst (json_Decode (Unmarshaler := Error_Decode)
         (NewBuffer (envelope "Invalid API key." false 7)) Error_zero) =
  {| StatusMessage := "Invalid API key."; Success := false; StatusCode := 7 |}.
Proof.
  exact (Error_text_determines_error _ _ eq_refl).
Defined.
